(** * morphos-fitness: the real-time rep-counting backend

  A shallow embedding of the websocket backend service
  ([src/api/websocket.py] and [src/core/managers.py]) together with the
  properties its design document states about it.

  Numbers.  Python's [float] and [int] values are represented by the
  rational they denote ([Q]) wherever a property does not depend on how a
  result rounds; the concrete traces of that model keep every comparison
  far from equality.  The branch a single call of [RepCounter.update]
  takes does depend on rounding, and is stated on [RepCounter64], the same
  method over binary64 floats.

  Time.  [time.time()] is an input of the model: a function that consults
  the clock takes the reading it would obtain as an argument (or draws it
  from the clock oracle of its world). *)

From Stdlib Require Import QArith Qabs ZArith String Ascii List Lia Lqa DecimalString.
From Stdlib Require Floats.
From stdpp Require Import gmap strings list.

Import ListNotations.
Local Open Scope string_scope.
Local Open Scope list_scope.

(** ** Python numbers *)

Module PyNum.

(** [x < y] on numbers. *)
Definition Qltb (x y : Q) : bool := negb (Qle_bool y x).

(** [sum(xs)]: left fold of [+] starting from [0]. *)
Definition py_sum (xs : list Q) : Q := fold_left Qplus xs 0%Q.

(** [max(xs)] keeps the first item and replaces it by any later item that
    compares strictly greater; [min(xs)] is symmetric.  Both raise on an
    empty list, which is [None] here. *)
Definition py_max (xs : list Q) : option Q :=
  match xs with
  | [] => None
  | x :: rest => Some (fold_left (fun m y => if Qltb m y then y else m) rest x)
  end.

Definition py_min (xs : list Q) : option Q :=
  match xs with
  | [] => None
  | x :: rest => Some (fold_left (fun m y => if Qltb y m then y else m) rest x)
  end.

(** [xs[:-1]] *)
Definition all_but_last {A} (xs : list A) : list A := removelast xs.

End PyNum.
Import PyNum.

(** ** RepCounter *)

(** A keypoint is a [Dict[str, Any]] whose entries are numbers
  ([x], [y], [confidence]); any of the keys may be missing. *)
Abbreviation keypoint := (gmap string Q).

Module RepCounter.

Record t : Type := mk {
  keypoint_idx : nat;
  positions : list Q;
  max_positions : nat;
  going_up : option bool;
  rep_count : Z;
  last_rep_time : Q
}.

(** [RepCounter.__init__] with [keypoint_idx=9]. *)
Definition init : t :=
  {| keypoint_idx := 9; positions := []; max_positions := 10;
     going_up := None; rep_count := 0; last_rep_time := 0 |}.

(** [self.positions.append(y)] followed by the [pop(0)] of an over-full
    buffer. *)
Definition push_position (ps : list Q) (y : Q) (cap : nat) : list Q :=
  let ps1 := ps ++ [y] in
  if (cap <? length ps1)%nat then tail ps1 else ps1.

(** [sum(positions[:-1]) / (len(positions) - 1)], the exact quotient; as
    the interpreter rounds it, [RepCounter64.avg_prev]. *)
Definition avg_prev (ps : list Q) : Q :=
  (py_sum (all_but_last ps) / inject_Z (Z.of_nat (length ps - 1)))%Q.

(** [abs(max(positions) - min(positions))] *)
Definition amplitude (ps : list Q) : Q :=
  match py_max ps, py_min ps with
  | Some hi, Some lo => Qabs (hi - lo)
  | _, _ => 0%Q
  end.

(** [self.going_up is not None and self.going_up != direction_up] *)
Definition direction_changed (prev : option bool) (direction_up : bool) : bool :=
  match prev with
  | None => false
  | Some d => negb (eqb d direction_up)
  end.

(** Attribute assignments. *)
Definition set_positions (ps : list Q) (self : t) : t :=
  mk (keypoint_idx self) ps (max_positions self) (going_up self)
     (rep_count self) (last_rep_time self).
Definition set_going_up (d : option bool) (self : t) : t :=
  mk (keypoint_idx self) (positions self) (max_positions self) d
     (rep_count self) (last_rep_time self).
Definition set_rep_count (n : Z) (self : t) : t :=
  mk (keypoint_idx self) (positions self) (max_positions self) (going_up self)
     n (last_rep_time self).
Definition set_last_rep_time (now : Q) (self : t) : t :=
  mk (keypoint_idx self) (positions self) (max_positions self) (going_up self)
     (rep_count self) now.

(** [RepCounter.update].  [now] is the reading [time.time()] gives when the
    call consults it.  The result pairs the mutated counter with the
    returned count. *)
Definition update (self : t) (keypoints : list keypoint) (now : Q) : t * Z :=
  if (length keypoints =? 0)%nat || (length keypoints <=? keypoint_idx self)%nat
  then (self, rep_count self)
  else
    match keypoints !! keypoint_idx self with
    | None => (self, rep_count self)
    | Some kp =>
      let current_y := default 0%Q (kp !! "y") in
      let current_confidence := default 0%Q (kp !! "confidence") in
      if Qltb current_confidence (1#2) then (self, rep_count self)
      else
        let self :=
          set_positions
            (push_position (positions self) current_y (max_positions self)) self in
        if (length (positions self) <? 3)%nat then (self, rep_count self)
        else
          let direction_up := Qltb current_y (avg_prev (positions self)) in
          let self :=
            if direction_changed (going_up self) direction_up then
              let current_time := now in
              if Qltb (1#2) (current_time - last_rep_time self) then
                if Qltb (15#100) (amplitude (positions self)) then
                  set_last_rep_time current_time
                    (set_rep_count (rep_count self + 1) self)
                else self
              else self
            else self in
          let self := set_going_up (Some direction_up) self in
          (self, rep_count self)
    end.

(** A call of the stream: the keypoint list and the clock reading. *)
Definition call : Type := list keypoint * Q.

(** The counter after a sequence of [update] calls. *)
Definition run (self : t) (calls : list call) : t :=
  fold_left (fun s c => (update s c.1 c.2).1) calls self.

(** The clock readings of the calls that raised [rep_count], in call
    order. *)
Fixpoint rep_times (self : t) (calls : list call) : list Q :=
  match calls with
  | [] => []
  | c :: rest =>
    let self' := (update self c.1 c.2).1 in
    (if (rep_count self <? rep_count self')%Z then [c.2] else [])
      ++ rep_times self' rest
  end.

(** The vertical position a call contributes to the buffer of a counter
    tracking index [idx], if the call is not discarded. *)
Definition observation (idx : nat) (c : call) : option Q :=
  match c.1 !! idx with
  | None => None
  | Some kp =>
    if Qltb (default 0%Q (kp !! "confidence")) (1#2) then None
    else Some (default 0%Q (kp !! "y"))
  end.

Definition observations (idx : nat) (calls : list call) : list Q :=
  omap (observation idx) calls.

(** The last [n] items of a list, in order. *)
Definition last_n {A} (n : nat) (xs : list A) : list A :=
  drop (length xs - n) xs.

(** Consecutive entries are more than half a second apart, starting from
    [last]. *)
Fixpoint spaced (last : Q) (ts : list Q) : Prop :=
  match ts with
  | [] => True
  | t :: rest => (1#2 < t - last)%Q /\ spaced t rest
  end.

(** [self'] is [self] moved [d] seconds later with [k] more reps counted. *)
Definition later_by (k : Z) (d : Q) (self self' : t) : Prop :=
  keypoint_idx self' = keypoint_idx self /\
  positions self' = positions self /\
  max_positions self' = max_positions self /\
  going_up self' = going_up self /\
  rep_count self' = (rep_count self + k)%Z /\
  (last_rep_time self' == last_rep_time self + d)%Q.

(** The same keypoints, [d] seconds later. *)
Definition delayed (d : Q) (c c' : call) : Prop :=
  c'.1 = c.1 /\ (c'.2 == c.2 + d)%Q.

End RepCounter.

(** ** A synthetic oscillation *)

Module Oscillation.
Import RepCounter.

Definition kp (y c : Q) : keypoint := <["y" := y]> (<["confidence" := c]> ∅).

(** Ten keypoints; the tracked one (index 9) sits at height [y] with
    confidence 1. *)
Definition frame (y : Q) : list keypoint := replicate 9 ∅ ++ [kp y 1].

(** One period of a triangle wave around 0.5 with amplitude 0.3. *)
Definition triangle : list Q :=
  [20#100; 35#100; 50#100; 65#100; 80#100; 65#100; 50#100; 35#100]%Q.

(** Sample [k] is taken at [100 + k/4] seconds: four samples a second, eight
    samples (two seconds) a period. *)
Definition sample (k : nat) : call :=
  (frame (nth (k mod 8) triangle 0%Q), Qmake (400 + Z.of_nat k) 4).

(** The first [n] full oscillations. *)
Definition oscillations (n : nat) : list call := map sample (seq 0 (8 * n)).

End Oscillation.


(** ** Origin gate ([cors_validation]) *)

Module OriginGate.

(** The two fields of [Settings] the gate reads. *)
Record Settings : Type := {
  DEBUG : bool;
  CORS_ORIGINS : list string
}.

(** [str.lower] on a header name (header names are ASCII tokens). *)
Definition lower_ascii (c : ascii) : ascii :=
  let n := nat_of_ascii c in
  if ((65 <=? n) && (n <=? 90))%nat then ascii_of_nat (n + 32) else c.

Fixpoint lower (s : string) : string :=
  match s with
  | EmptyString => EmptyString
  | String c rest => String (lower_ascii c) (lower rest)
  end.

(** [next((value.decode() for name, value in headers
           if name.decode().lower() == "origin"), None)]
    on header names and values that are already text; [Asgi.origin] is the
    search on the header bytes, decoding included. *)
Fixpoint origin_header (headers : list (string * string)) : option string :=
  match headers with
  | [] => None
  | (name, value) :: rest =>
    if String.eqb (lower name) "origin" then Some value else origin_header rest
  end.

(** Truth value of [origin]: [None] and the empty string are false. *)
Definition truthy (origin : option string) : bool :=
  match origin with
  | None => false
  | Some o => negb (String.eqb o "")
  end.

(** [x in xs] for a list of strings. *)
Definition contains (x : string) (xs : list string) : bool :=
  existsb (String.eqb x) xs.

Definition cors_validation (settings : Settings) (headers : list (string * string)) : bool :=
  let origin := origin_header headers in
  if DEBUG settings then true
  else if truthy origin
          && (match origin with
              | Some o => contains o (CORS_ORIGINS settings)
              | None => false
              end
              || contains "*" (CORS_ORIGINS settings))
  then true
  else false.

End OriginGate.


(** ** Exceptions and effects *)

(** The faults a call can raise: every one is an instance of Python's
  [Exception]; [str e] is the text [str(e)] gives.  ([BaseException]s that
  are not [Exception]s, such as task cancellation, are control signals and
  are not modelled.) *)
Inductive exn : Type :=
| TimeoutError
| Exception (msg : string).

Definition str (e : exn) : string :=
match e with
| TimeoutError => ""
| Exception msg => msg
end.

(** A computation over a world [W]: it returns or raises, and the world keeps
  every effect made before a raise. *)
Definition io (W A : Type) : Type := W -> (exn + A) * W.

Module IO.
Section Ops.
Context {W : Type}.

Definition ret {A} (a : A) : io W A := fun w => (inr a, w).
Definition bind {A B} (m : io W A) (k : A -> io W B) : io W B :=
  fun w =>
    match m w with
    | (inr a, w') => k a w'
    | (inl e, w') => (inl e, w')
    end.

(** [try: m  except ...: handler e] where the handlers together catch
    every [Exception]. *)
Definition try_except {A} (m : io W A) (handler : exn -> io W A) : io W A :=
  fun w =>
    match m w with
    | (inr a, w') => (inr a, w')
    | (inl e, w') => handler e w'
    end.

(** [for x in xs: body x] *)
Fixpoint for_each {A} (xs : list A) (body : A -> io W unit) : io W unit :=
  match xs with
  | [] => ret tt
  | x :: rest => bind (body x) (fun _ => for_each rest body)
  end.

Definition get : io W W := fun w => (inr w, w).
Definition modify (f : W -> W) : io W unit := fun w => (inr tt, f w).
End Ops.
End IO.

Declare Scope io_scope.
Delimit Scope io_scope with io.
Notation "x <- m ;; k" := (IO.bind m (fun x => k))
(at level 100, m at next level, right associativity) : io_scope.
Notation "m ;;; k" := (IO.bind m (fun _ => k))
(at level 100, right associativity) : io_scope.

(** ** JSON payloads *)

(** The values a message or an inference payload binds to its keys.  The one
  array shape the service exchanges is the keypoint array. *)
Inductive value : Type :=
| VNull
| VBool (b : bool)
| VInt (n : Z)
| VNum (x : Q)
| VStr (s : string)
| VKeypoints (kps : list keypoint).

(** A [Dict[str, Any]] sent or received as a JSON object. *)
Abbreviation payload := (gmap string value).

(** ** Inference client ([call_inference_service]) *)

Module InferenceClient.

Record request : Type := {
  url : string;
  json : payload;
  timeout_total : Q
}.

(** An HTTP response: its status and what [await response.json()] does. *)
Record response : Type := {
  status : Z;
  body : exn + payload
}.

(** The process environment and the inference service seen from the client:
    [replies] lists what each successive POST meets (a response or a fault),
    [requests] logs the POSTs issued so far. *)
Record http : Type := {
  environ : gmap string string;
  replies : list (exn + response);
  requests : list request
}.

(** [os.environ.get(key, fallback)] *)
Definition getenv (key fallback : string) : io http string :=
  fun w => (inr (default fallback (environ w !! key)), w).

(** [session.post(url, json=..., timeout=...)]: the request is logged and
    meets the next reply; a service that has no reply left never answers,
    which the client sees as a timeout. *)
Definition post (rq : request) : io http response :=
  fun w =>
    let w' := {| environ := environ w; replies := tail (replies w);
                 requests := requests w ++ [rq] |} in
    match replies w with
    | inr resp :: _ => (inr resp, w')
    | inl e :: _ => (inl e, w')
    | [] => (inl TimeoutError, w')
    end.

(** [await response.json()] *)
Definition response_json (resp : response) : io http payload :=
  fun w => (body resp, w).

(** [f"{n}"] for an integer. *)
Definition format_int (n : Z) : string := NilZero.string_of_int (Z.to_int n).

Definition error_result (text : string) : payload := {[ "error" := VStr text ]}.

Definition call_inference_service (frame_data : string) : io http payload :=
  (inference_url <- getenv "INFERENCE_SERVICE_URL" "http://inference-service:8000" ;;
   IO.try_except
     (resp <- post {| url := inference_url +:+ "/inference";
                      json := {[ "image" := VStr frame_data ]};
                      timeout_total := 5 |} ;;
      if negb (status resp =? 200)%Z then
        IO.ret (error_result ("Inference service error: " +:+ format_int (status resp)))
      else response_json resp)
     (fun e =>
        match e with
        | TimeoutError => IO.ret (error_result "Inference service timeout")
        | Exception _ =>
          IO.ret (error_result ("Error calling inference service: " +:+ str e))
        end))%io.

(** The three error payloads. *)
Definition status_error (code : Z) : payload :=
  error_result ("Inference service error: " +:+ format_int code).
Definition timeout_error : payload :=
  error_result "Inference service timeout".
Definition transport_error (msg : string) : payload :=
  error_result ("Error calling inference service: " +:+ msg).

(** The POST a call issues. *)
Definition inference_request (w : http) (frame_data : string) : request :=
  {| url := default "http://inference-service:8000"
              (environ w !! "INFERENCE_SERVICE_URL") +:+ "/inference";
     json := {[ "image" := VStr frame_data ]};
     timeout_total := 5 |}.

End InferenceClient.

(** ** Session frame handling

    The frame branch of the message loop of [websocket_endpoint]: the
    inference call and what is sent back. *)

Module Session.

(** The entry [session_data[client_id]]. *)
Record t : Type := mk {
  rep_counter : RepCounter.t;
  exercise_type : string;
  last_frame_time : Q;
  processed_frames : Z
}.

Definition set_rep_counter (rc : RepCounter.t) (s : t) : t :=
  mk rc (exercise_type s) (last_frame_time s) (processed_frames s).

(** [analyze_form] on a keypoint list. *)
Definition analyze_form (keypoints : list keypoint) (exercise_type : string) : string :=
  if (length keypoints =? 0)%nat || (length keypoints <? 10)%nat then "unknown"
  else "good".

(** Truth value of a payload value. *)
Definition truthy (v : value) : bool :=
  match v with
  | VNull => false
  | VBool b => b
  | VInt n => negb (n =? 0)%Z
  | VNum x => negb (Qeq_bool x 0)
  | VStr s => negb (String.eqb s "")
  | VKeypoints kps => negb (length kps =? 0)%nat
  end.

(** [len(v)]; numbers, booleans and [None] have none. *)
Definition py_len (v : value) : exn + nat :=
  match v with
  | VStr s => inr (String.length s)
  | VKeypoints kps => inr (length kps)
  | _ => inl (Exception "object has no len()")
  end.

(** [rep_counter.update(keypoints)] for whatever the payload binds to
    [keypoints]: a keypoint array takes [RepCounter.update]; a false value
    and a short string leave through the first guard; other values raise at
    [len] or at [.get]. *)
Definition rep_counter_update (rc : RepCounter.t) (keypoints : value) (now : Q)
  : exn + (RepCounter.t * Z) :=
  match keypoints with
  | VKeypoints kps => inr (RepCounter.update rc kps now)
  | _ =>
    if negb (truthy keypoints) then inr (rc, RepCounter.rep_count rc)
    else
      match py_len keypoints with
      | inl e => inl e
      | inr n =>
        if (n <=? RepCounter.keypoint_idx rc)%nat
        then inr (rc, RepCounter.rep_count rc)
        else inl (Exception "'str' object has no attribute 'get'")
      end
  end.

(** [analyze_form(keypoints, exercise_type)], likewise. *)
Definition form_of (keypoints : value) (exercise_type : string) : exn + string :=
  match keypoints with
  | VKeypoints kps => inr (analyze_form kps exercise_type)
  | _ =>
    if negb (truthy keypoints) then inr "unknown"
    else
      match py_len keypoints with
      | inl e => inl e
      | inr n => if (n <? 10)%nat then inr "unknown" else inr "good"
      end
  end.

(** What the loop does with the result of the inference call: the message
    handed to [websocket.send_json] and the session afterwards, or the
    exception that leaves the loop. *)
Definition reply_to_frame (s : t) (analysis_results : payload) (now : Q)
  : exn + (payload * t) :=
  if bool_decide (is_Some (analysis_results !! "error")) then
    inr (analysis_results, s)
  else
    match analysis_results !! "keypoints" with
    | None => inr (analysis_results, s)
    | Some keypoints =>
      match rep_counter_update (rep_counter s) keypoints now with
      | inl e => inl e
      | inr (rc, rep_count) =>
        let s := set_rep_counter rc s in
        let analysis_results := <["rep_count" := VInt rep_count]> analysis_results in
        if truthy keypoints then
          match form_of keypoints (exercise_type s) with
          | inl e => inl e
          | inr form_quality =>
            inr (<["form_quality" := VStr form_quality]> analysis_results, s)
          end
        else inr (analysis_results, s)
      end
    end.

(** A frame message: the inference call, then the reply. *)
Definition process_frame (s : t) (data : string) (now : Q)
  : io InferenceClient.http (payload * t) :=
  (analysis_results <- InferenceClient.call_inference_service data ;;
   fun w => (reply_to_frame s analysis_results now, w))%io.

End Session.

(** ** Connection registry ([ConnectionManager]) *)

Module ConnectionManager.

(** A [WebSocket] object. *)
Definition websocket : Type := nat.

(** [dict] operations that keep insertion order, which is the order
    [items()] iterates in. *)
Fixpoint dict_get {V} (k : string) (d : list (string * V)) : option V :=
  match d with
  | [] => None
  | (k', v) :: rest => if String.eqb k k' then Some v else dict_get k rest
  end.

Fixpoint dict_set {V} (k : string) (v : V) (d : list (string * V)) : list (string * V) :=
  match d with
  | [] => [(k, v)]
  | (k', v') :: rest =>
    if String.eqb k k' then (k, v) :: rest else (k', v') :: dict_set k v rest
  end.

Definition dict_del {V} (k : string) (d : list (string * V)) : list (string * V) :=
  filter (fun e => negb (String.eqb k e.1)) d.

(** The manager's two dictionaries, and the world its calls act on: which
    sockets still accept a send, the messages delivered so far, and the
    clock, whose [n]-th reading is [clock n]. *)
Record world : Type := mk {
  active_connections : list (string * websocket);
  last_activity : gmap string Q;
  accepts_send : websocket -> bool;
  delivered : list (websocket * payload);
  clock : nat -> Q;
  ticks : nat
}.

(** [time.time()] *)
Definition time_time : io world Q :=
  fun w =>
    (inr (clock w (ticks w)),
     mk (active_connections w) (last_activity w) (accepts_send w) (delivered w)
        (clock w) (S (ticks w))).

(** [await websocket.send_json(message)] *)
Definition send_json (ws : websocket) (message : payload) : io world unit :=
  fun w =>
    if accepts_send w ws then
      (inr tt,
       mk (active_connections w) (last_activity w) (accepts_send w)
          (delivered w ++ [(ws, message)]) (clock w) (ticks w))
    else (inl (Exception "websocket is closed"), w).

Definition set_active_connections (d : list (string * websocket)) : io world unit :=
  IO.modify (fun w =>
    mk d (last_activity w) (accepts_send w) (delivered w) (clock w) (ticks w)).

Definition set_last_activity (m : gmap string Q) : io world unit :=
  IO.modify (fun w =>
    mk (active_connections w) m (accepts_send w) (delivered w) (clock w) (ticks w)).

Definition connect (ws : websocket) (client_id : string) : io world unit :=
  (w <- IO.get ;;
   set_active_connections (dict_set client_id ws (active_connections w)) ;;;
   now <- time_time ;;
   w <- IO.get ;;
   set_last_activity (<[client_id := now]> (last_activity w)))%io.

Definition disconnect (client_id : string) : io world unit :=
  (w <- IO.get ;;
   (if bool_decide (is_Some (dict_get client_id (active_connections w)))
    then set_active_connections (dict_del client_id (active_connections w))
    else IO.ret tt) ;;;
   w <- IO.get ;;
   if bool_decide (is_Some (last_activity w !! client_id))
   then set_last_activity (delete client_id (last_activity w))
   else IO.ret tt)%io.

Definition send_message (client_id : string) (message : payload) : io world unit :=
  (w <- IO.get ;;
   match dict_get client_id (active_connections w) with
   | Some ws =>
     send_json ws message ;;;
     now <- time_time ;;
     w <- IO.get ;;
     set_last_activity (<[client_id := now]> (last_activity w))
   | None => IO.ret tt
   end)%io.

Definition broadcast (message : payload) : io world unit :=
  (w <- IO.get ;;
   IO.for_each (active_connections w)
     (fun item =>
        send_json item.2 message ;;;
        now <- time_time ;;
        w <- IO.get ;;
        set_last_activity (<[item.1 := now]> (last_activity w))))%io.

Definition heartbeat_message : payload := {[ "type" := VStr "heartbeat" ]}.

(** The [while] loop of [heartbeat], run for at most [rounds] sleeps (the
    task is cancelled from outside). *)
Fixpoint heartbeat_loop (rounds : nat) (client_id : string) : io world unit :=
  match rounds with
  | O => IO.ret tt
  | S rounds =>
    (w <- IO.get ;;
     match dict_get client_id (active_connections w) with
     | None => IO.ret tt
     | Some _ =>
       (* await asyncio.sleep(interval) *)
       w <- IO.get ;;
       match dict_get client_id (active_connections w) with
       | Some ws => send_json ws heartbeat_message
       | None => IO.ret tt
       end ;;;
       heartbeat_loop rounds client_id
     end)%io
  end.

Definition heartbeat (rounds : nat) (client_id : string) : io world unit :=
  IO.try_except (heartbeat_loop rounds client_id) (fun _ => disconnect client_id).

End ConnectionManager.

(** ** A registry with two clients *)

Module Scenario.
Import ConnectionManager.

(** An empty registry; the clock reads 100, 130, 160, ... *)
Definition fresh (accepts : websocket -> bool) : world :=
  mk [] ∅ accepts [] (fun n => inject_Z (100 + 30 * Z.of_nat n)) 0.

(** Client [a] connects on socket 1, then client [b] on socket 2. *)
Definition two_clients (accepts : websocket -> bool) : world :=
  ((connect 1 "a" ;;; connect 2 "b")%io (fresh accepts)).2.

Definition all_open : websocket -> bool := fun _ => true.

(** Socket 1 has gone stale; socket 2 is fine. *)
Definition first_stale : websocket -> bool := fun ws => negb (ws =? 1)%nat.

Definition notice : payload := {[ "status" := VStr "maintenance" ]}.

End Scenario.

(** ** The websocket endpoint ([websocket_endpoint])

    One connection from the origin check to the cleanup.  The heartbeat task
    the endpoint starts runs concurrently and is modelled on its own
    ([ConnectionManager.heartbeat]); it is not interleaved here. *)

Module Endpoint.
Import ConnectionManager.

(** [Settings()] as [config/settings.py] declares it, with nothing
    overridden from the environment. *)
Definition default_settings : OriginGate.Settings :=
  {| OriginGate.DEBUG := false;
     OriginGate.CORS_ORIGINS :=
       [ "*";
         "https://localhost:8080";
         "http://localhost:8080";
         "http://localhost:3000";
         "https://localhost:3000";
         "null";
         "https://morphos-backend-service-1020595365432.us-central1.run.app" ] |}.

(** The module-level state of [api/websocket.py] ([manager], [session_data])
    with the inference service it talks to and the sockets it accepted. *)
Record server : Type := mk_server {
  manager : ConnectionManager.world;
  session_data : gmap string Session.t;
  net : InferenceClient.http;
  accepted : list websocket
}.

(** A text message as [receive_text] returns it, with the clock readings the
    loop obtains while it handles the message: [frame_time] at the frame
    statistics, [rep_time] inside [RepCounter.update]. *)
Record inbound : Type := {
  data : string;
  frame_time : Q;
  rep_time : Q
}.

Definition raise {A} (e : exn) : io server A := fun sv => (inl e, sv).

(** A manager call, and a call of the inference client, made from the
    endpoint. *)
Definition on_manager {A} (m : io ConnectionManager.world A) : io server A :=
  fun sv =>
    let '(r, w) := m (manager sv) in
    (r, mk_server w (session_data sv) (net sv) (accepted sv)).

Definition on_net {A} (m : io InferenceClient.http A) : io server A :=
  fun sv =>
    let '(r, n) := m (net sv) in
    (r, mk_server (manager sv) (session_data sv) n (accepted sv)).

(** [await websocket.accept()] *)
Definition accept (ws : websocket) : io server unit :=
  IO.modify (fun sv =>
    mk_server (manager sv) (session_data sv) (net sv) (accepted sv ++ [ws])).

(** [session_data[client_id]], a [KeyError] when the client has no entry. *)
Definition get_session (client_id : string) : io server Session.t :=
  fun sv =>
    match session_data sv !! client_id with
    | Some s => (inr s, sv)
    | None => (inl (Exception "KeyError"), sv)
    end.

Definition put_session (client_id : string) (s : Session.t) : io server unit :=
  IO.modify (fun sv =>
    mk_server (manager sv) (<[client_id := s]> (session_data sv)) (net sv)
              (accepted sv)).

(** The entry a client gets on its first connection. *)
Definition new_session (now : Q) : Session.t :=
  Session.mk RepCounter.init "squat" now 0.

(** [if client_id not in session_data: session_data[client_id] = {...}] *)
Definition ensure_session (client_id : string) (now : Q) : io server unit :=
  (sv <- IO.get ;;
   match session_data sv !! client_id with
   | Some _ => IO.ret tt
   | None => put_session client_id (new_session now)
   end)%io.

Definition welcome : payload :=
  {[ "status" := VStr "connected"; "message" := VStr "Connection established" ]}.

Definition ok : payload := {[ "status" := VStr "ok" ]}.

(** [data.startswith("{")] *)
Definition starts_with_brace (text : string) : bool :=
  match text with
  | String c _ => Ascii.eqb c "{"
  | EmptyString => false
  end.

(** A control message that [json.loads] decoded.  As with keypoints, the
    object's fields are taken at the type the service uses them at: strings,
    as in [{"exercise_type": "bicep_curl"}] and [{"action": "reset"}]. *)
Definition control_message (client_id : string) (ws : websocket)
    (control_data : gmap string string) : io server unit :=
  (match control_data !! "exercise_type" with
   | Some e =>
     s <- get_session client_id ;;
     put_session client_id
       (Session.mk (Session.rep_counter s) e
                   (Session.last_frame_time s) (Session.processed_frames s)) ;;;
     s <- get_session client_id ;;
     put_session client_id (Session.set_rep_counter RepCounter.init s)
   | None => IO.ret tt
   end ;;;
   (if bool_decide (control_data !! "action" = Some "reset") then
      s <- get_session client_id ;;
      put_session client_id (Session.set_rep_counter RepCounter.init s)
    else IO.ret tt) ;;;
   on_manager (send_json ws ok))%io.

(** A frame message: the frame statistics (whose log line, every 100th
    frame, divides by the time since the previous frame), the inference call
    and the reply. *)
Definition frame_message (client_id : string) (ws : websocket) (m : inbound)
  : io server unit :=
  (let current_time := frame_time m in
   s <- get_session client_id ;;
   let elapsed := (current_time - Session.last_frame_time s)%Q in
   put_session client_id
     (Session.mk (Session.rep_counter s) (Session.exercise_type s)
                 current_time (Session.processed_frames s)) ;;;
   s <- get_session client_id ;;
   put_session client_id
     (Session.mk (Session.rep_counter s) (Session.exercise_type s)
                 (Session.last_frame_time s) (Session.processed_frames s + 1)) ;;;
   s <- get_session client_id ;;
   (if (Session.processed_frames s mod 100 =? 0)%Z then
      if Qeq_bool elapsed 0 then raise (Exception "float division by zero")
      else IO.ret tt
    else IO.ret tt) ;;;
   analysis_results <- on_net (InferenceClient.call_inference_service (data m)) ;;
   s <- get_session client_id ;;
   match Session.reply_to_frame s analysis_results (rep_time m) with
   | inl e => raise e
   | inr (reply, s') =>
     put_session client_id s' ;;;
     on_manager (send_json ws reply)
   end)%io.

(** One turn of the [while True] loop.  [json_loads] is [json.loads]:
    [None] stands for its [JSONDecodeError]. *)
Definition on_message (json_loads : string -> option (gmap string string))
    (client_id : string) (ws : websocket) (m : inbound) : io server unit :=
  if starts_with_brace (data m) then
    match json_loads (data m) with
    | Some control_data => control_message client_id ws control_data
    | None => frame_message client_id ws m
    end
  else frame_message client_id ws m.

(** The endpoint for a client that sends [messages] and then closes the
    connection, which [receive_text] reports as [WebSocketDisconnect].
    [now] is the clock reading a new session entry gets.  [headers] are
    header names and values that decode, given as text; on those the gate
    on the header bytes, [Asgi.cors_validation], returns the decision of
    [OriginGate.cors_validation]. *)
Definition websocket_endpoint (settings : OriginGate.Settings)
    (json_loads : string -> option (gmap string string))
    (headers : list (string * string)) (ws : websocket) (client_id : string)
    (now : Q) (messages : list inbound) : io server unit :=
  if negb (OriginGate.cors_validation settings headers) then IO.ret tt
  else
    (accept ws ;;;
     on_manager (connect ws client_id) ;;;
     ensure_session client_id now ;;;
     IO.try_except
       (on_manager (send_json ws welcome) ;;;
        IO.for_each messages (on_message json_loads client_id ws) ;;;
        raise (Exception "WebSocketDisconnect"))
       (fun _ => on_manager (disconnect client_id)))%io.

(** The session fields a frame message sets before the inference call. *)
Definition count_frame (s : Session.t) (current_time : Q) : Session.t :=
  Session.mk (Session.rep_counter s) (Session.exercise_type s)
             current_time (Session.processed_frames s + 1).

(** The session a control message leaves. *)
Definition after_control (s : Session.t) (control_data : gmap string string)
  : Session.t :=
  Session.mk
    (if bool_decide (is_Some (control_data !! "exercise_type"))
        || bool_decide (control_data !! "action" = Some "reset")
     then RepCounter.init else Session.rep_counter s)
    (default (Session.exercise_type s) (control_data !! "exercise_type"))
    (Session.last_frame_time s) (Session.processed_frames s).

(** A computation that accepts no socket and drops no session entry. *)
Definition keeps_sessions {A} (m : io server A) : Prop :=
  forall sv,
    accepted (m sv).2 = accepted sv /\
    forall c, is_Some (session_data sv !! c) ->
              is_Some (session_data (m sv).2 !! c).

End Endpoint.

(** ** The echo endpoint ([simple_websocket]) *)

Module SimpleEndpoint.

(** What the test socket sent so far; [budget] is the number of sends the
    connection still carries before [send_text] raises. *)
Record wire : Type := mk {
  sent : list string;
  budget : nat
}.

Definition send_text (text : string) : io wire unit :=
  fun w =>
    match budget w with
    | O => (inl (Exception "websocket is closed"), w)
    | S n => (inr tt, mk (sent w ++ [text]) n)
    end.

(** The echo loop: it ends at the first exception, which is logged, or when
    the client has no more messages ([WebSocketDisconnect]). *)
Fixpoint echo_loop (messages : list string) : io wire unit :=
  match messages with
  | [] => IO.ret tt
  | text :: rest =>
    IO.bind
      (IO.try_except
         (IO.bind (send_text ("Echo: " +:+ text)) (fun _ => IO.ret true))
         (fun _ => IO.ret false))
      (fun proceed => if proceed then echo_loop rest else IO.ret tt)
  end.

Definition simple_websocket (messages : list string) : io wire unit :=
  IO.try_except
    (IO.bind (send_text "Connected to simple test endpoint")
             (fun _ => echo_loop messages))
    (fun _ => IO.ret tt).

End SimpleEndpoint.

(** ** RepCounter in binary64

    [RepCounter] above reads Python's numbers as exact rationals, which is
    enough for every property that does not depend on how a result rounds.
    Which branch a single call takes does depend on it: [sum(...) / n] and
    the subtractions are binary64 operations.  This module is
    [RepCounter.update] with Python's [float] arithmetic as the interpreter
    performs it (IEEE 754 binary64, NaN and infinities included).  Keypoint
    entries are floats; a JSON integer is taken at its float value.

    The built-in [sum] is an input, [py_sum]: CPython adds left to right up
    to version 3.11 and uses a compensated sum from 3.12 on. *)

Module RepCounter64.
Import PrimFloat.

Abbreviation keypoint64 := (gmap string float).

(** The literals [0.5] and [0.15] as Python reads them. *)
Definition half : float := 0x1p-1%float.
Definition min_movement : float := 0x1.3333333333333p-3%float.

(** A small non-negative [int] as a float, for [len(...) - 1]. *)
Definition float_of_nat (n : nat) : float :=
  of_uint63 (Uint63.of_Z (Z.of_nat n)).

(** [sum] as CPython up to 3.11 computes it on floats: [0 + x0 + x1 + ...]. *)
Definition sum_left (xs : list float) : float := fold_left add xs 0%float.

(** [max(xs)] and [min(xs)]: the first item, replaced by each later item
    that compares greater (respectively less). *)
Definition py_max (xs : list float) : option float :=
  match xs with
  | [] => None
  | x :: rest => Some (fold_left (fun m y => if ltb m y then y else m) rest x)
  end.

Definition py_min (xs : list float) : option float :=
  match xs with
  | [] => None
  | x :: rest => Some (fold_left (fun m y => if ltb y m then y else m) rest x)
  end.

Record t : Type := mk {
  keypoint_idx : nat;
  positions : list float;
  max_positions : nat;
  going_up : option bool;
  rep_count : Z;
  last_rep_time : float
}.

(** [RepCounter.__init__] with [keypoint_idx=9]. *)
Definition init : t :=
  {| keypoint_idx := 9; positions := []; max_positions := 10;
     going_up := None; rep_count := 0; last_rep_time := 0%float |}.

(** [self.positions.append(y)], then [pop(0)] when over capacity. *)
Definition push_position (ps : list float) (y : float) (cap : nat) : list float :=
  let ps1 := ps ++ [y] in
  if (cap <? length ps1)%nat then tail ps1 else ps1.

Definition set_positions (ps : list float) (self : t) : t :=
  mk (keypoint_idx self) ps (max_positions self) (going_up self)
     (rep_count self) (last_rep_time self).

Definition set_going_up (g : option bool) (self : t) : t :=
  mk (keypoint_idx self) (positions self) (max_positions self) g
     (rep_count self) (last_rep_time self).

Definition set_rep_count (n : Z) (self : t) : t :=
  mk (keypoint_idx self) (positions self) (max_positions self) (going_up self)
     n (last_rep_time self).

Definition set_last_rep_time (now : float) (self : t) : t :=
  mk (keypoint_idx self) (positions self) (max_positions self) (going_up self)
     (rep_count self) now.

Section Update.
Variable py_sum : list float -> float.

(** [sum(positions[:-1]) / (len(positions) - 1)] *)
Definition avg_prev (ps : list float) : float :=
  div (py_sum (removelast ps)) (float_of_nat (length ps - 1)).

(** [abs(max(positions) - min(positions))] *)
Definition amplitude (ps : list float) : float :=
  match py_max ps, py_min ps with
  | Some hi, Some lo => abs (sub hi lo)
  | _, _ => 0%float
  end.

(** [RepCounter.update]; [now] is the reading [time.time()] gives if the
    call consults the clock. *)
Definition update (self : t) (keypoints : list keypoint64) (now : float) : t * Z :=
  if (length keypoints =? 0)%nat || (length keypoints <=? keypoint_idx self)%nat
  then (self, rep_count self)
  else
    match keypoints !! keypoint_idx self with
    | None => (self, rep_count self)
    | Some kp =>
      let current_y := default 0%float (kp !! "y") in
      let current_confidence := default 0%float (kp !! "confidence") in
      if ltb current_confidence half then (self, rep_count self)
      else
        let self :=
          set_positions
            (push_position (positions self) current_y (max_positions self)) self in
        if (length (positions self) <? 3)%nat then (self, rep_count self)
        else
          let direction_up := ltb current_y (avg_prev (positions self)) in
          let self :=
            if RepCounter.direction_changed (going_up self) direction_up then
              let current_time := now in
              if ltb half (sub current_time (last_rep_time self)) then
                if ltb min_movement (amplitude (positions self)) then
                  set_last_rep_time current_time
                    (set_rep_count (rep_count self + 1) self)
                else self
              else self
            else self in
          let self := set_going_up (Some direction_up) self in
          (self, rep_count self)
    end.

(** The counter after a sequence of calls. *)
Definition run (self : t) (calls : list (list keypoint64 * float)) : t :=
  fold_left (fun s c => (update s c.1 c.2).1) calls self.

End Update.

(** Ten keypoints, the tracked one at height [y] with confidence 1. *)
Definition frame (y : float) : list keypoint64 :=
  replicate 9 ∅ ++ [<["y" := y]> (<["confidence" := 1%float]> ∅)].

(** Four frames at 0.1, one a second from clock reading 100. *)
Definition level_start : list (list keypoint64 * float) :=
  [ (frame 0x1.999999999999ap-4, 100); (frame 0x1.999999999999ap-4, 101);
    (frame 0x1.999999999999ap-4, 102); (frame 0x1.999999999999ap-4, 103) ]%float.

End RepCounter64.


(** ** The origin gate on the raw header bytes

    [websocket.scope["headers"]] is a list of pairs of [bytes].  The gate
    decodes a name to test it and the value of the first match, both with
    [bytes.decode()]: strict UTF-8, raising [UnicodeDecodeError] on a
    malformed sequence.  This happens in the [next(...)] expression, before
    [settings.DEBUG] is read.

    A decoded [str] is represented by its UTF-8 bytes, so that decoding a
    well-formed byte string returns the same bytes.  [OriginGate.lower]
    changes the ASCII capitals only; for the comparison with ["origin"] that
    is what [str.lower] amounts to, since the lower-case form of a character
    outside ASCII is never made of the letters o, r, i, g, n alone. *)

Module Asgi.
Import OriginGate.

Abbreviation bytes := string.

Definition in_range (lo hi : nat) (c : ascii) : bool :=
  let n := nat_of_ascii c in ((lo <=? n) && (n <=? hi))%nat.

(** A continuation byte, [10xxxxxx]. *)
Definition cont (c : ascii) : bool := in_range 128 191 c.

(** The second byte of a three-byte sequence: no overlong form after [E0],
    no surrogate after [ED]. *)
Definition second3 (lead : nat) (c : ascii) : bool :=
  if (lead =? 224)%nat then in_range 160 191 c
  else if (lead =? 237)%nat then in_range 128 159 c
  else cont c.

(** The second byte of a four-byte sequence: no overlong form after [F0],
    nothing above U+10FFFF after [F4]. *)
Definition second4 (lead : nat) (c : ascii) : bool :=
  if (lead =? 240)%nat then in_range 144 191 c
  else if (lead =? 244)%nat then in_range 128 143 c
  else cont c.

(** Well-formed UTF-8, as the strict decoder accepts it. *)
Fixpoint utf8_valid (s : bytes) : bool :=
  match s with
  | EmptyString => true
  | String c0 r0 =>
    let b0 := nat_of_ascii c0 in
    if (b0 <? 128)%nat then utf8_valid r0
    else if ((194 <=? b0) && (b0 <=? 223))%nat then
      match r0 with
      | String c1 r1 => cont c1 && utf8_valid r1
      | _ => false
      end
    else if ((224 <=? b0) && (b0 <=? 239))%nat then
      match r0 with
      | String c1 (String c2 r2) => second3 b0 c1 && cont c2 && utf8_valid r2
      | _ => false
      end
    else if ((240 <=? b0) && (b0 <=? 244))%nat then
      match r0 with
      | String c1 (String c2 (String c3 r3)) =>
        second4 b0 c1 && cont c2 && cont c3 && utf8_valid r3
      | _ => false
      end
    else false
  end.

(** [b.decode()] *)
Definition decode (b : bytes) : exn + string :=
  if utf8_valid b then inr b else inl (Exception "UnicodeDecodeError").

(** [next((value.decode() for name, value in headers
           if name.decode().lower() == "origin"), None)]:
    names are decoded in order up to the first match, then its value. *)
Fixpoint origin (headers : list (bytes * bytes)) : exn + option string :=
  match headers with
  | [] => inr None
  | (name, value) :: rest =>
    match decode name with
    | inl e => inl e
    | inr n =>
      if String.eqb (lower n) "origin" then
        match decode value with
        | inl e => inl e
        | inr v => inr (Some v)
        end
      else origin rest
    end
  end.

Definition cors_validation (settings : Settings) (headers : list (bytes * bytes))
  : exn + bool :=
  match origin headers with
  | inl e => inl e
  | inr origin =>
    if DEBUG settings then inr true
    else if truthy origin
            && (match origin with
                | Some o => contains o (CORS_ORIGINS settings)
                | None => false
                end
                || contains "*" (CORS_ORIGINS settings))
    then inr true
    else inr false
  end.

(** The bytes [FF FE], which no UTF-8 text contains. *)
Definition not_utf8 : bytes := String "255"%char (String "254"%char EmptyString).

End Asgi.

(** * Properties *)

(** ** Numbers *)

Section PyNumFacts.

Lemma Qltb_lt (x y : Q) : Qltb x y = true <-> (x < y)%Q.
Proof.
  unfold Qltb. rewrite negb_true_iff. split.
  - intros H. apply Qnot_le_lt. intros Hle.
    apply Qle_bool_iff in Hle. congruence.
  - intros H. destruct (Qle_bool y x) eqn:E; [|reflexivity].
    apply Qle_bool_iff in E. exfalso. exact (Qlt_not_le _ _ H E).
Qed.

Lemma Qltb_ge (x y : Q) : Qltb x y = false <-> (y <= x)%Q.
Proof.
  unfold Qltb. rewrite negb_false_iff. apply Qle_bool_iff.
Qed.

End PyNumFacts.

(** ** Properties of RepCounter *)

Section RepCounterFacts.
Import RepCounter.

Lemma update_accepted self kps now kp :
  kps !! keypoint_idx self = Some kp ->
  Qltb (default 0%Q (kp !! "confidence")) (1#2) = false ->
  let y := default 0%Q (kp !! "y") in
  let self1 := set_positions (push_position (positions self) y (max_positions self)) self in
  update self kps now =
    if (length (positions self1) <? 3)%nat then (self1, rep_count self1)
    else
      let direction_up := Qltb y (avg_prev (positions self1)) in
      let self2 :=
        if direction_changed (going_up self1) direction_up then
          if Qltb (1#2) (now - last_rep_time self1) then
            if Qltb (15#100) (amplitude (positions self1)) then
              set_last_rep_time now (set_rep_count (rep_count self1 + 1) self1)
            else self1
          else self1
        else self1 in
      (set_going_up (Some direction_up) self2,
       rep_count (set_going_up (Some direction_up) self2)).
Proof.
  intros Hkp Hconf. unfold update.
  pose proof (lookup_lt_Some _ _ _ Hkp) as Hlt.
  replace (length kps =? 0)%nat with false
    by (symmetry; apply Nat.eqb_neq; lia).
  replace (length kps <=? keypoint_idx self)%nat with false
    by (symmetry; apply Nat.leb_gt; lia).
  cbn [orb]. rewrite Hkp. cbv zeta. rewrite Hconf. reflexivity.
Qed.

Lemma update_discarded self kps now :
  (length kps <= keypoint_idx self)%nat \/
  (exists kp, kps !! keypoint_idx self = Some kp /\
              (default 0 (kp !! "confidence") < 1#2)%Q) ->
  update self kps now = (self, rep_count self).
Proof.
  intros [Hshort | (kp & Hkp & Hconf)]; unfold update.
  - replace (length kps <=? keypoint_idx self)%nat with true
      by (symmetry; apply Nat.leb_le; lia).
    rewrite orb_true_r. reflexivity.
  - destruct (_ || _); [reflexivity|].
    rewrite Hkp. cbv zeta.
    apply Qltb_lt in Hconf. rewrite Hconf. reflexivity.
Qed.

Lemma push_position_length ps y cap :
  (length ps <= cap)%nat -> (length (push_position ps y cap) <= cap)%nat.
Proof.
  intros H. unfold push_position.
  destruct (Nat.ltb_spec cap (length (ps ++ [y]))) as [Hfull | Hroom].
  - rewrite length_tl, length_app. simpl. lia.
  - exact Hroom.
Qed.

Lemma push_position_keeps_three ps y cap :
  (3 <= length ps)%nat -> (3 <= length (push_position ps y cap))%nat.
Proof.
  intros H. unfold push_position.
  destruct (cap <? length (ps ++ [y]))%nat;
    rewrite ?length_tl, length_app; simpl; lia.
Qed.

(** C3: a keypoint list that lacks the tracked index, or whose tracked
    keypoint has confidence below 0.5 (a missing confidence counts as 0),
    makes [update] return the current count and leaves the counter exactly
    as it was: buffer, direction flag, count and last-rep time. *)
Theorem update_discards_untracked_or_unsure self kps now :
  (length kps <= keypoint_idx self)%nat \/
  (exists kp, kps !! keypoint_idx self = Some kp /\
              (default 0 (kp !! "confidence") < 1#2)%Q) ->
  let r := update self kps now in
  r.2 = rep_count self /\
  positions r.1 = positions self /\
  going_up r.1 = going_up self /\
  rep_count r.1 = rep_count self /\
  last_rep_time r.1 = last_rep_time self /\
  r.1 = self.
Proof.
  intros H r. subst r. rewrite (update_discarded _ _ _ H). simpl. tauto.
Qed.

Lemma update_discards_untracked_or_unsure_witness :
  let self := RepCounter.run RepCounter.init (Oscillation.oscillations 1) in
  let r := update self (replicate 9 ∅ ++ [Oscillation.kp (80#100) (49#100)])
                  (103#1) in
  r.2 = rep_count self /\
  positions r.1 = positions self /\
  going_up r.1 = going_up self /\
  rep_count r.1 = rep_count self /\
  last_rep_time r.1 = last_rep_time self /\
  r.1 = self.
Proof.
  apply update_discards_untracked_or_unsure.
  right. eexists. split; [vm_compute; reflexivity | vm_compute; reflexivity].
Defined.

(** What a single call can do to the counter. *)
Lemma update_step self kps now :
  let self' := (update self kps now).1 in
  keypoint_idx self' = keypoint_idx self /\
  max_positions self' = max_positions self /\
  positions self' =
    match observation (keypoint_idx self) (kps, now) with
    | None => positions self
    | Some y => push_position (positions self) y (max_positions self)
    end /\
  ((rep_count self' = rep_count self /\ last_rep_time self' = last_rep_time self) \/
   (rep_count self' = (rep_count self + 1)%Z /\ last_rep_time self' = now /\
    (1#2 < now - last_rep_time self)%Q)).
Proof.
  unfold observation. cbn [fst snd].
  destruct (kps !! keypoint_idx self) as [kp|] eqn:Hkp.
  - destruct (Qltb (default 0%Q (kp !! "confidence")) (1#2)) eqn:Hconf.
    + rewrite update_discarded
        by (right; exists kp; split; [exact Hkp | apply Qltb_lt; exact Hconf]).
      cbn. tauto.
    + rewrite (update_accepted self kps now kp Hkp Hconf). cbv zeta.
      cbn [set_positions positions going_up rep_count last_rep_time
           max_positions keypoint_idx].
      destruct (length _ <? 3)%nat; [cbn; tauto|].
      destruct (direction_changed _ _); [|cbn; tauto].
      destruct (Qltb (1#2) _) eqn:Hc; [|cbn; tauto].
      destruct (Qltb (15#100) _); [|cbn; tauto].
      apply Qltb_lt in Hc. cbn. tauto.
  - rewrite update_discarded
      by (left; apply lookup_ge_None; exact Hkp).
    cbn. tauto.
Qed.

(** Whatever the counter, a call keeps a buffer that fits its capacity
    within it. *)
Lemma update_keeps_buffer_within_capacity self kps now :
  (length (positions self) <= max_positions self)%nat ->
  let self' := (update self kps now).1 in
  (length (positions self') <= max_positions self')%nat.
Proof.
  intros Hfit.
  destruct (update_step self kps now) as (_ & Hcap & Hpos & _).
  cbv zeta in *. rewrite Hcap, Hpos.
  destruct (observation _ _); [apply push_position_length|]; exact Hfit.
Qed.

Lemma run_snoc self calls c :
  run self (calls ++ [c]) = (update (run self calls) c.1 c.2).1.
Proof. unfold run. rewrite fold_left_app. reflexivity. Qed.

Lemma tail_drop {A} (n : nat) (l : list A) : tail (drop n l) = drop (S n) l.
Proof.
  revert l. induction n as [|n IH]; intros [|x l]; try reflexivity.
  exact (IH l).
Qed.

Lemma push_position_last_n (xs : list Q) y cap :
  (0 < cap)%nat ->
  push_position (last_n cap xs) y cap = last_n cap (xs ++ [y]).
Proof.
  intros Hcap. unfold push_position, last_n.
  rewrite !length_app, length_drop. cbn [length].
  destruct (Nat.ltb_spec cap (length xs - (length xs - cap) + 1)) as [Hfull|Hroom].
  - replace (length xs + 1 - cap)%nat with (S (length xs - cap)) by lia.
    rewrite <- drop_app_le by lia.
    apply tail_drop.
  - replace (length xs - cap)%nat with 0%nat by lia.
    replace (length xs + 1 - cap)%nat with 0%nat by lia.
    reflexivity.
Qed.

Lemma last_n_length {A} n (xs : list A) : (length (last_n n xs) <= n)%nat.
Proof. unfold last_n. rewrite length_drop. lia. Qed.

(** From [RepCounter()], the buffer always is the last ten accepted
    observations and the tracked index and the capacity stay as
    constructed. *)
Lemma run_init_buffer calls :
  let self := run init calls in
  keypoint_idx self = 9%nat /\ max_positions self = 10%nat /\
  positions self = last_n 10 (observations 9 calls).
Proof.
  induction calls as [|c calls IH] using rev_ind.
  - cbn. auto.
  - cbv zeta in *. destruct IH as (Hidx & Hcap & Hpos).
    rewrite run_snoc.
    destruct (update_step (run init calls) c.1 c.2) as (Hidx' & Hcap' & Hpos' & _).
    cbv zeta in *. rewrite Hidx', Hcap', Hpos', Hidx, Hcap, Hpos.
    split; [reflexivity|]. split; [reflexivity|].
    unfold observations. rewrite omap_app.
    replace (c.1, c.2) with c by (destruct c; reflexivity).
    change (omap (observation 9) [c])
      with (match observation 9 c with Some y => [y] | None => [] end).
    destruct (observation 9 c) as [y|].
    + apply push_position_last_n. lia.
    + rewrite app_nil_r. reflexivity.
Qed.

(** C5: in every call made on a counter built by [RepCounter()], the buffer
    keeps at most 10 positions (its fixed capacity) and is exactly the last
    ten accepted observations in arrival order, so the oldest is the one
    dropped, and [rep_count] after the call is at least its value before. *)
Theorem buffer_bounded_fifo_count_monotone (calls : list call) (c : call) :
  let self := run init calls in
  let self' := (update self c.1 c.2).1 in
  max_positions self' = 10%nat /\
  (length (positions self') <= 10)%nat /\
  positions self' = last_n 10 (observations 9 (calls ++ [c])) /\
  (rep_count self <= rep_count self')%Z.
Proof.
  intros self self'.
  destruct (run_init_buffer (calls ++ [c])) as (_ & Hcap & Hpos).
  rewrite run_snoc in Hcap, Hpos. fold self self' in Hcap, Hpos.
  split; [exact Hcap|]. split; [rewrite Hpos; apply last_n_length|].
  split; [exact Hpos|].
  destruct (update_step self c.1 c.2) as (_ & _ & _ & [[Hsame _] | [Hinc _]]);
    fold self' in Hsame || fold self' in Hinc; lia.
Qed.

Lemma rep_times_spaced calls :
  forall self, spaced (last_rep_time self) (rep_times self calls).
Proof.
  induction calls as [|c calls IH]; intros self; cbn [rep_times]; [exact I|].
  destruct (update_step self c.1 c.2) as (_ & _ & _ & [[Hsame Hlast] | (Hinc & Hlast & Hgap)]);
    cbv zeta in *.
  - rewrite Hsame, Z.ltb_irrefl. cbn [app]. rewrite <- Hlast. apply IH.
  - replace (rep_count self <? _)%Z with true
      by (symmetry; apply Z.ltb_lt; lia).
    cbn [app spaced]. split; [exact Hgap|]. rewrite <- Hlast at 1. apply IH.
Qed.

Lemma spaced_later last ts j t :
  spaced last ts -> ts !! j = Some t -> (1#2 < t - last)%Q.
Proof.
  revert last j. induction ts as [|t0 ts IH]; intros last j Hsp Hj.
  - destruct j; discriminate.
  - destruct Hsp as [Hgap Hrest]. destruct j as [|j]; cbn in Hj.
    + injection Hj as <-. exact Hgap.
    + specialize (IH _ _ Hrest Hj). lra.
Qed.

Lemma spaced_pairwise last ts i j t1 t2 :
  spaced last ts -> (i < j)%nat ->
  ts !! i = Some t1 -> ts !! j = Some t2 -> (1#2 < t2 - t1)%Q.
Proof.
  revert last i j. induction ts as [|t0 ts IH]; intros last i j Hsp Hij Hi Hj.
  - destruct i; discriminate.
  - destruct Hsp as [_ Hrest]. destruct j as [|j]; [lia|].
    destruct i as [|i]; cbn in Hi, Hj.
    + injection Hi as <-. exact (spaced_later _ _ _ _ Hrest Hj).
    + apply (IH t0 i j); [exact Hrest | lia | exact Hi | exact Hj].
Qed.

(** C4: whatever the keypoints and the clock readings of a sequence of
    [update] calls, any two calls that each raised [rep_count] have clock
    readings more than 0.5 s apart; two reversals closer than that yield at
    most one rep. *)
Theorem reps_at_least_debounce_apart self (calls : list call) (i j : nat) (t1 t2 : Q) :
  (i < j)%nat ->
  rep_times self calls !! i = Some t1 ->
  rep_times self calls !! j = Some t2 ->
  (1#2 < t2 - t1)%Q.
Proof.
  intros Hij Hi Hj.
  exact (spaced_pairwise _ _ _ _ _ _ (rep_times_spaced calls self) Hij Hi Hj).
Qed.

Lemma reps_at_least_debounce_apart_witness :
  rep_times init (Oscillation.oscillations 2) = [406#4; 410#4; 414#4]%Q /\
  (1#2 < (414#4) - (406#4))%Q.
Proof.
  split; [vm_compute; reflexivity|].
  apply (reps_at_least_debounce_apart init (Oscillation.oscillations 2) 0 2);
    [lia | vm_compute; reflexivity | vm_compute; reflexivity].
Defined.

End RepCounterFacts.

(** ** Properties of the origin gate *)

Section OriginGateFacts.
Import OriginGate.

Lemma contains_In x xs : contains x xs = true <-> In x xs.
Proof.
  unfold contains. rewrite existsb_exists. split.
  - intros (y & Hy & Heq). apply String.eqb_eq in Heq. subst. exact Hy.
  - intros H. exists x. split; [exact H | apply String.eqb_refl].
Qed.

(** The claim as written, "an origin header that is present and allowed (or
    a wildcard allow-list) is approved", fails for a present but empty
    origin header. *)
Lemma empty_origin_rejected_despite_wildcard :
  let settings := {| DEBUG := false; CORS_ORIGINS := ["*"] |} in
  let headers := [("origin", "")] in
  ~ (cors_validation settings headers = true <->
     exists o, origin_header headers = Some o /\
               (In o (CORS_ORIGINS settings) \/ In "*" (CORS_ORIGINS settings))).
Proof.
  intros settings headers [_ H].
  assert (Hc : cors_validation settings headers = false) by reflexivity.
  rewrite H in Hc; [discriminate|].
  exists "". split; [reflexivity|]. right. left. reflexivity.
Qed.

End OriginGateFacts.

(** ** Properties of the inference client *)

Section InferenceClientFacts.
Import InferenceClient.

Lemma error_result_inj a b : error_result a = error_result b -> a = b.
Proof.
  unfold error_result. intros H.
  apply (f_equal (fun m : payload => m !! "error")) in H.
  rewrite !lookup_singleton_eq in H. congruence.
Qed.

(** C6: for every frame and every behaviour of the inference service the
    call returns a payload and raises nothing; it issues exactly one POST
    (no retry); a response whose status is not 2xx gives the error payload
    that carries the status code, a timeout gives the timeout error payload,
    any other fault gives the generic error payload with the fault's
    message, and the timeout payload differs from both other kinds. *)
Theorem call_inference_service_never_raises frame_data w :
  exists result w',
    call_inference_service frame_data w = (inr result, w') /\
    requests w' = requests w ++ [inference_request w frame_data] /\
    replies w' = tail (replies w) /\
    (forall resp, head (replies w) = Some (inr resp) ->
                  ~ (200 <= status resp <= 299)%Z ->
                  result = status_error (status resp)) /\
    (head (replies w) = Some (inl TimeoutError) -> result = timeout_error) /\
    (forall msg, head (replies w) = Some (inl (Exception msg)) ->
                 result = transport_error msg) /\
    (forall code msg, timeout_error <> status_error code /\
                      timeout_error <> transport_error msg).
Proof.
  assert (Hdistinct : forall code msg,
             timeout_error <> status_error code /\
             timeout_error <> transport_error msg).
  { intros code msg. split; intros H; apply error_result_inj in H;
      unfold append in H; discriminate. }
  unfold call_inference_service, IO.bind, IO.try_except, getenv, post,
    response_json, IO.ret.
  destruct (replies w) as [|[e|resp] rest] eqn:Hreplies; cbn [head tail].
  - eexists _, _. split; [reflexivity|]. cbn [requests replies].
    repeat split; try discriminate; apply Hdistinct.
  - destruct e as [|msg]; eexists _, _; (split; [reflexivity|]);
      cbn [requests replies]; repeat split; try discriminate;
      try apply Hdistinct.
    intros msg' [= <-]. reflexivity.
  - destruct (status resp =? 200)%Z eqn:Hok; cbn [negb].
    + apply Z.eqb_eq in Hok.
      destruct (body resp) as [[|msg]|p] eqn:Hbody;
        eexists _, _; (split; [rewrite ?Hbody; reflexivity|]);
        cbn [requests replies]; repeat split; try discriminate;
        try apply Hdistinct;
        intros resp' [= <-] Hnot; exfalso; apply Hnot; lia.
    + eexists _, _. split; [reflexivity|]. cbn [requests replies].
      repeat split; try discriminate; try apply Hdistinct.
      intros resp' [= <-] _. reflexivity.
Qed.

Lemma call_inference_service_never_raises_witness :
  let w := {| environ := ∅;
              replies := [inr {| status := 503; body := inr ∅ |};
                          inr {| status := 200; body := inr ∅ |}];
              requests := [] |} in
  exists w', call_inference_service "frame" w = (inr (status_error 503), w') /\
             length (requests w') = 1%nat /\
             status_error 503 = error_result "Inference service error: 503".
Proof.
  intros w.
  destruct (call_inference_service_never_raises "frame" w)
    as (result & w' & Hcall & Hreq & _ & Hstatus & _).
  exists w'. rewrite Hcall, Hreq.
  rewrite (Hstatus {| status := 503; body := inr ∅ |});
    [ | reflexivity | cbn; lia ].
  repeat split.
Defined.

End InferenceClientFacts.

(** ** The synthetic oscillation *)

Section OscillationFacts.
Import RepCounter Oscillation.

Lemma Qltb_shift (a b a' b' : Q) :
  (a' - b' == a - b)%Q -> Qltb (1#2) (a' - b') = Qltb (1#2) (a - b).
Proof.
  intros H. unfold Qltb. f_equal. apply Qleb_comp; [exact H | reflexivity].
Qed.

(** [update] does not depend on absolute time. *)
Lemma update_later_by k d self self' kps now now' :
  later_by k d self self' -> (now' == now + d)%Q ->
  later_by k d (update self kps now).1 (update self' kps now').1.
Proof.
  intros Hrel Hnow.
  pose proof Hrel as (Hidx & Hps & Hcap & Hdir & Hn & Hlast).
  destruct (kps !! keypoint_idx self) as [kp|] eqn:Hkp.
  - destruct (Qltb (default 0%Q (kp !! "confidence")) (1#2)) eqn:Hconf.
    + rewrite !update_discarded; [exact Hrel | |];
        right; exists kp; rewrite ?Hidx; (split; [exact Hkp | apply Qltb_lt; exact Hconf]).
    + rewrite (update_accepted self kps now kp Hkp Hconf).
      rewrite (update_accepted self' kps now' kp) by (rewrite ?Hidx; assumption).
      cbv zeta.
      cbn [set_positions positions going_up rep_count last_rep_time
           max_positions keypoint_idx].
      rewrite Hps, Hcap, Hdir.
      rewrite (Qltb_shift now (last_rep_time self) now' (last_rep_time self'))
        by (rewrite Hnow, Hlast; ring).
      unfold later_by.
      repeat match goal with
             | |- context [if ?b then _ else _] => destruct b
             end;
        cbn [fst set_positions set_going_up set_rep_count set_last_rep_time
             positions going_up rep_count last_rep_time max_positions keypoint_idx];
        repeat split; try assumption; lia.
  - rewrite !update_discarded; [exact Hrel | |];
      left; apply lookup_ge_None; rewrite ?Hidx; exact Hkp.
Qed.

Lemma run_later_by k d calls calls' :
  Forall2 (delayed d) calls calls' ->
  forall self self',
    later_by k d self self' -> later_by k d (run self calls) (run self' calls').
Proof.
  induction 1 as [|c c' calls calls' [Hkps Hnow] _ IH]; intros self self' Hrel.
  - exact Hrel.
  - cbn. apply IH. rewrite Hkps. apply update_later_by; assumption.
Qed.

(** A sample one period (eight samples) on: same keypoints, 2 s later. *)
Lemma sample_next_period k : delayed 2 (sample k) (sample (k + 8)).
Proof.
  unfold delayed, sample. cbn [fst snd]. split.
  - replace (k + 8)%nat with (k + 1 * 8)%nat by lia.
    rewrite Nat.Div0.mod_add. reflexivity.
  - unfold Qeq, Qplus. cbn. lia.
Qed.

Lemma samples_next_period len :
  forall k, Forall2 (delayed 2) (map sample (seq k len)) (map sample (seq (k + 8) len)).
Proof.
  induction len as [|len IH]; intros k; cbn; constructor.
  - apply sample_next_period.
  - apply (IH (S k)).
Qed.

Lemma oscillations_succ n :
  oscillations (S n) = oscillations n ++ map sample (seq (8 * n) 8).
Proof.
  unfold oscillations. replace (8 * S n)%nat with (8 * n + 8)%nat by lia.
  rewrite seq_app, map_app. reflexivity.
Qed.

Lemma run_app self calls1 calls2 :
  run self (calls1 ++ calls2) = run (run self calls1) calls2.
Proof. unfold run. apply fold_left_app. Qed.

(** From the second oscillation on, the counter after one more oscillation
    is the same counter 2 s later with two more reps. *)
Lemma oscillation_steady n :
  later_by 2 2 (run init (oscillations (n + 2))) (run init (oscillations (n + 3))).
Proof.
  induction n as [|n IH].
  - unfold later_by. repeat split; vm_compute; reflexivity.
  - replace (S n + 3)%nat with (S (n + 3)) by lia.
    replace (S n + 2)%nat with (S (n + 2)) by lia.
    rewrite (oscillations_succ (n + 3)), (oscillations_succ (n + 2)), !run_app.
    apply run_later_by; [|exact IH].
    replace (8 * (n + 3))%nat with (8 * (n + 2) + 8)%nat by lia.
    apply samples_next_period.
Qed.

(** C1, as the code has it: a rep is counted at every direction reversal
    that passes the debounce and amplitude gates, so a slow oscillation
    counts twice.  For the triangle wave between 0.2 and 0.8 (amplitude 0.3)
    with a period of 2 s, sampled every 0.25 s with confidence 1, the first
    oscillation, during which the direction is first established, yields 1
    rep and every further full oscillation raises [rep_count] by exactly 2. *)
Theorem oscillation_counts_two_per_period (n : nat) :
  rep_count (run init (oscillations 1)) = 1%Z /\
  rep_count (run init (oscillations (n + 2))) =
    (rep_count (run init (oscillations (n + 1))) + 2)%Z /\
  rep_count (run init (oscillations (n + 1))) = (2 * Z.of_nat n + 1)%Z.
Proof.
  split; [vm_compute; reflexivity|].
  assert (Hstep : forall m,
    rep_count (run init (oscillations (m + 2))) =
    (rep_count (run init (oscillations (m + 1))) + 2)%Z).
  { intros [|m].
    - vm_compute. reflexivity.
    - destruct (oscillation_steady m) as (_ & _ & _ & _ & Hcount & _).
      replace (S m + 2)%nat with (m + 3)%nat by lia.
      replace (S m + 1)%nat with (m + 2)%nat by lia. exact Hcount. }
  split; [apply Hstep|].
  induction n as [|n IH].
  - vm_compute. reflexivity.
  - replace (S n + 1)%nat with (n + 2)%nat by lia. rewrite Hstep, IH. lia.
Qed.

(** The claim as written, "exactly 1 per full oscillation, not 2", fails on
    the second oscillation of that wave. *)
Lemma second_oscillation_counts_two :
  let before := rep_count (run init (oscillations 1)) in
  let after := rep_count (run init (oscillations 2)) in
  after = (before + 2)%Z /\ ~ after = (before + 1)%Z.
Proof.
  cbv zeta. split; [vm_compute; reflexivity|]. vm_compute. discriminate.
Qed.

End OscillationFacts.

(** ** Properties of the session's frame handling *)

Section SessionFacts.
Import Session InferenceClient.

Lemma no_error_key (p : payload) :
  p !! "error" = None -> bool_decide (is_Some (p !! "error")) = false.
Proof.
  intros H. apply bool_decide_eq_false. rewrite H. intros [x Hx]. discriminate.
Qed.

(** C9, as the code has it: when the inference call returns a payload without
    an [error] key, the reply is that payload with [rep_count] (the integer
    [RepCounter.update] returns) added if the payload has a keypoint array,
    and with [form_quality] (the string [analyze_form] returns) added as well
    if that array is not empty; the session keeps the updated counter.  A
    payload without a [keypoints] key is sent back as it is. *)
Theorem process_frame_reply s data now w results w' :
  call_inference_service data w = (inr results, w') ->
  results !! "error" = None ->
  match results !! "keypoints" with
  | Some (VKeypoints kps) =>
    let r := RepCounter.update (rep_counter s) kps now in
    let counted := <["rep_count" := VInt r.2]> results in
    process_frame s data now w =
      (inr (match kps with
            | [] => counted
            | _ :: _ =>
              <["form_quality" := VStr (analyze_form kps (exercise_type s))]> counted
            end,
            set_rep_counter r.1 s), w')
  | Some _ => True
  | None => process_frame s data now w = (inr (results, s), w')
  end.
Proof.
  intros Hcall Hok.
  unfold process_frame, IO.bind. rewrite Hcall.
  unfold reply_to_frame. rewrite (no_error_key _ Hok).
  destruct (results !! "keypoints") as [[| | | | |kps]|]; try exact I; [|reflexivity].
  cbn [rep_counter_update]. cbv zeta.
  destruct (RepCounter.update (rep_counter s) kps now) as [rc n].
  destruct kps as [|k kps]; reflexivity.
Qed.

Lemma process_frame_reply_witness :
  let kps := Oscillation.frame (50#100) in
  let results : payload := {[ "keypoints" := VKeypoints kps ]} in
  let w := {| environ := ∅;
              replies := [inr {| status := 200; body := inr results |}];
              requests := [] |} in
  let s := Session.mk (RepCounter.run RepCounter.init
                         (map Oscillation.sample (seq 0 10)))
                      "squat" 0 0 in
  exists s' w',
    process_frame s "frame" (410#4) w =
      (inr (<["form_quality" := VStr "good"]> (<["rep_count" := VInt 2]> results), s'), w').
Proof.
  intros kps results w s.
  pose proof (process_frame_reply s "frame" (410#4) w results
                {| environ := ∅; replies := [];
                   requests := [inference_request w "frame"] |}) as H.
  specialize (H ltac:(reflexivity)).
  specialize (H ltac:(reflexivity)).
  change (results !! "keypoints") with (Some (VKeypoints kps)) in H.
  cbv zeta in H. eexists _, _. rewrite H.
  repeat f_equal.
Defined.

(** The claim as written, "every successful inference payload comes back
    with [rep_count] and [form_quality]", fails for a payload without
    keypoints and for one with an empty keypoint array. *)
Lemma process_frame_reply_not_always_enriched :
  let s := Session.mk RepCounter.init "squat" 0 0 in
  let serve (p : payload) :=
    {| environ := ∅; replies := [inr {| status := 200; body := inr p |}];
       requests := [] |} in
  (exists w', process_frame s "frame" 100 (serve ∅) = (inr (∅, s), w')) /\
  (exists w',
     let p : payload := {[ "keypoints" := VKeypoints [] ]} in
     let reply := <["rep_count" := VInt 0]> p in
     process_frame s "frame" 100 (serve p) = (inr (reply, s), w') /\
     reply !! "form_quality" = None).
Proof.
  split.
  - eexists. reflexivity.
  - eexists. split; reflexivity.
Qed.

End SessionFacts.

(** ** Properties of the connection registry *)

Section ConnectionManagerFacts.
Import ConnectionManager.

(** One delivery of [broadcast] to an open socket. *)
Lemma broadcast_step message item (w : world) :
  accepts_send w item.2 = true ->
  (send_json item.2 message ;;;
   now <- time_time ;;
   w1 <- IO.get ;;
   set_last_activity (<[item.1 := now]> (last_activity w1)))%io w =
  (inr tt,
   mk (active_connections w) (<[item.1 := clock w (ticks w)]> (last_activity w))
      (accepts_send w) (delivered w ++ [(item.2, message)]) (clock w) (S (ticks w))).
Proof.
  intros Hopen. unfold IO.bind, send_json. rewrite Hopen. reflexivity.
Qed.

(** When every registered socket accepts the send, [broadcast] returns
    normally and delivers the message to every registered connection, in
    registration order. *)
Lemma broadcast_all_delivered message (w : world) :
  Forall (fun item => accepts_send w item.2 = true) (active_connections w) ->
  exists w',
    broadcast message w = (inr tt, w') /\
    active_connections w' = active_connections w /\
    delivered w' =
      delivered w ++ map (fun item => (item.2, message)) (active_connections w).
Proof.
  unfold broadcast. unfold IO.bind at 1. unfold IO.get at 1.
  generalize (active_connections w) at 1 2 4 as items.
  intros items. revert w.
  induction items as [|item items IH]; intros w Hall.
  - exists w. cbn. rewrite app_nil_r. auto.
  - inversion Hall as [|? ? Hopen Hrest]; subst.
    cbn [IO.for_each]. unfold IO.bind at 1.
    rewrite (broadcast_step message item w Hopen).
    match goal with
    | |- context [IO.for_each items _ ?w1] =>
      destruct (IH w1) as (w' & Hrun & Hconns & Hlog); [exact Hrest|]
    end.
    exists w'. rewrite Hrun. cbn in Hconns, Hlog.
    rewrite Hconns, Hlog, <- app_assoc. auto.
Qed.

(** A direct send to a registered client whose socket accepts it records the
    clock reading as the client's last activity. *)
Lemma send_message_records_activity client_id ws message (w : world) :
  dict_get client_id (active_connections w) = Some ws ->
  accepts_send w ws = true ->
  exists w',
    send_message client_id message w = (inr tt, w') /\
    delivered w' = delivered w ++ [(ws, message)] /\
    last_activity w' !! client_id = Some (clock w (ticks w)).
Proof.
  intros Hreg Hopen. unfold send_message. unfold IO.bind at 1. unfold IO.get at 1.
  rewrite Hreg.
  pose proof (broadcast_step message (client_id, ws) w Hopen) as Hstep.
  cbn [fst snd] in Hstep. rewrite Hstep.
  eexists. split; [reflexivity|]. cbn. split; [reflexivity|].
  apply lookup_insert_eq.
Qed.

(** C7 at a failing input: clients [a] (socket 1, stale) and [b] (socket 2,
    open) are registered; [broadcast] raises at [a]'s socket and [b] never
    gets the message, although with both sockets open [b] does. *)
Theorem broadcast_aborts_at_stale_connection :
  let w := Scenario.two_clients Scenario.first_stale in
  let r := broadcast Scenario.notice w in
  active_connections w = [("a", 1%nat); ("b", 2%nat)] /\
  r.1 = inl (Exception "websocket is closed") /\
  delivered r.2 = [] /\
  ~ In (2%nat, Scenario.notice) (delivered r.2) /\
  delivered (broadcast Scenario.notice (Scenario.two_clients Scenario.all_open)).2
    = [(1%nat, Scenario.notice); (2%nat, Scenario.notice)].
Proof.
  cbv zeta. assert (Hlog :
    delivered (broadcast Scenario.notice
                 (Scenario.two_clients Scenario.first_stale)).2 = [])
    by (vm_compute; reflexivity).
  rewrite Hlog. repeat split; try (vm_compute; reflexivity).
  intros [].
Qed.

(** C8 at a failing input: client [a] registered at clock reading 100; one
    heartbeat round delivers the heartbeat marker to [a]'s socket and leaves
    [a]'s last activity at 100 without reading the clock, whereas a direct
    send and a broadcast record the reading taken after the send. *)
Theorem heartbeat_send_skips_last_activity :
  let w := Scenario.two_clients Scenario.all_open in
  let beat := heartbeat 1 "a" w in
  let direct := send_message "a" Scenario.notice w in
  let all := broadcast Scenario.notice w in
  last_activity w !! "a" = Some (inject_Z 100) /\
  beat.1 = inr tt /\
  delivered beat.2 = [(1%nat, heartbeat_message)] /\
  last_activity beat.2 !! "a" = Some (inject_Z 100) /\
  ticks beat.2 = ticks w /\
  last_activity direct.2 !! "a" = Some (inject_Z 160) /\
  last_activity all.2 !! "a" = Some (inject_Z 160).
Proof.
  cbv zeta. repeat split; vm_compute; reflexivity.
Qed.

End ConnectionManagerFacts.

(** * Further properties *)

(** ** RepCounter beyond the stated claims *)

Section RepCounterMore.
Import RepCounter.

Lemma observation_None_discarded self kps now :
  observation (keypoint_idx self) (kps, now) = None ->
  update self kps now = (self, rep_count self).
Proof.
  unfold observation. cbn [fst].
  destruct (kps !! keypoint_idx self) as [kp|] eqn:Hkp.
  - destruct (Qltb (default 0%Q (kp !! "confidence")) (1#2)) eqn:Hconf;
      [|discriminate].
    intros _. apply update_discarded. right. exists kp.
    split; [exact Hkp | apply Qltb_lt; exact Hconf].
  - intros _. apply update_discarded. left. apply lookup_ge_None. exact Hkp.
Qed.

Lemma observation_Some_accepted self kps now y :
  observation (keypoint_idx self) (kps, now) = Some y ->
  exists kp, kps !! keypoint_idx self = Some kp /\
             Qltb (default 0%Q (kp !! "confidence")) (1#2) = false /\
             y = default 0%Q (kp !! "y").
Proof.
  unfold observation. cbn [fst].
  destruct (kps !! keypoint_idx self) as [kp|]; [|discriminate].
  destruct (Qltb (default 0%Q (kp !! "confidence")) (1#2)) eqn:Hconf;
    [discriminate|].
  intros [= <-]. exists kp. auto.
Qed.

(** A selection fold returns one of the items it went through. *)
Lemma fold_select_Forall (P : Q -> Prop) (pick : Q -> Q -> bool) rest :
  forall x, P x -> Forall P rest ->
  P (fold_left (fun m y => if pick m y then y else m) rest x).
Proof.
  induction rest as [|y rest IH]; intros x Hx Hrest; cbn; [exact Hx|].
  inversion Hrest; subst. apply IH; [|assumption].
  destruct (pick x y); assumption.
Qed.

Lemma amplitude_within_band lo width ps :
  Forall (fun y => lo <= y /\ y <= lo + width)%Q ps ->
  (0 <= width)%Q ->
  (amplitude ps <= width)%Q.
Proof.
  intros Hband Hwidth. unfold amplitude, py_max, py_min.
  destruct ps as [|x rest]; [exact Hwidth|].
  inversion Hband as [|? ? Hx Hrest]; subst.
  pose proof (fold_select_Forall _ (fun m y => Qltb m y) rest x Hx Hrest) as Hhi.
  pose proof (fold_select_Forall _ (fun m y => Qltb y m) rest x Hx Hrest) as Hlo.
  cbv beta in Hhi, Hlo.
  apply Qabs_Qle_condition. split; lra.
Qed.

Lemma push_position_Forall (P : Q -> Prop) ps y cap :
  Forall P ps -> P y -> Forall P (push_position ps y cap).
Proof.
  intros Hps Hy. unfold push_position.
  assert (Hall : Forall P (ps ++ [y])) by (apply Forall_app; auto).
  destruct (cap <? length (ps ++ [y]))%nat; [|exact Hall].
  destruct (ps ++ [y]); [constructor|]. inversion Hall; assumption.
Qed.

Lemma update_quiet_window self kps now :
  (forall y, observation (keypoint_idx self) (kps, now) = Some y ->
             (amplitude (push_position (positions self) y (max_positions self))
              <= 15#100)%Q) ->
  rep_count (update self kps now).1 = rep_count self.
Proof.
  intros Hquiet.
  destruct (observation (keypoint_idx self) (kps, now)) as [y|] eqn:Hobs.
  - destruct (observation_Some_accepted _ _ _ _ Hobs) as (kp & Hkp & Hconf & ->).
    specialize (Hquiet _ eq_refl). apply Qltb_ge in Hquiet.
    rewrite (update_accepted self kps now kp Hkp Hconf). cbv zeta.
    cbn [set_positions positions going_up rep_count last_rep_time
         max_positions keypoint_idx].
    rewrite Hquiet.
    repeat match goal with
           | |- context [if ?b then _ else _] => destruct b
           end; reflexivity.
  - rewrite (observation_None_discarded _ _ _ Hobs). reflexivity.
Qed.

(** X1: while the buffered positions and every accepted observation stay
    inside one band of width 0.15, no sequence of calls counts a rep,
    whatever the clock and however often the direction flips. *)
Theorem quiet_band_never_counts (lo : Q) self (calls : list call) :
  Forall (fun y => lo <= y /\ y <= lo + (15#100))%Q (positions self) ->
  Forall (fun y => lo <= y /\ y <= lo + (15#100))%Q
         (observations (keypoint_idx self) calls) ->
  rep_count (run self calls) = rep_count self.
Proof.
  revert self. induction calls as [|c calls IH]; intros self Hbuf Hobs;
    [reflexivity|].
  cbn [run fold_left].
  change (fold_left _ calls ?s) with (run s calls).
  destruct (update_step self c.1 c.2) as (Hidx & _ & Hpos & _).
  cbv zeta in Hidx, Hpos.
  replace (c.1, c.2) with c in Hpos by (destruct c; reflexivity).
  assert (Hsplit :
    match observation (keypoint_idx self) c with
    | Some y => (lo <= y /\ y <= lo + (15#100))%Q
    | None => True
    end /\
    Forall (fun y => lo <= y /\ y <= lo + (15#100))%Q
           (observations (keypoint_idx self) calls)).
  { unfold observations in *.
    change (omap (observation (keypoint_idx self)) (c :: calls))
      with (match observation (keypoint_idx self) c with
            | Some y => y :: omap (observation (keypoint_idx self)) calls
            | None => omap (observation (keypoint_idx self)) calls
            end) in Hobs.
    destruct (observation (keypoint_idx self) c);
      [inversion Hobs; auto | auto]. }
  destruct Hsplit as [Hc Hrest].
  rewrite IH.
  - apply update_quiet_window. intros y Hy.
    replace (c.1, c.2) with c in Hy by (destruct c; reflexivity).
    rewrite Hy in Hc.
    apply (amplitude_within_band lo); [|lra].
    apply push_position_Forall; assumption.
  - rewrite Hpos. destruct (observation (keypoint_idx self) c) as [y|];
      [|exact Hbuf].
    apply push_position_Forall; assumption.
  - rewrite Hidx. exact Hrest.
Qed.

Lemma quiet_band_never_counts_witness :
  let calls :=
    map (fun k => (Oscillation.frame (nth (k mod 2) [45#100; 55#100]%Q 0%Q),
                   Qmake (400 + 4 * Z.of_nat k) 4)) (seq 0 12) in
  rep_count (run init calls) = 0%Z.
Proof.
  intros calls.
  apply (quiet_band_never_counts (45#100) init calls).
  - constructor.
  - vm_compute. repeat constructor; discriminate.
Defined.

Lemma update_without_direction self kps now :
  going_up self = None ->
  rep_count (update self kps now).1 = rep_count self.
Proof.
  intros Hnone.
  destruct (observation (keypoint_idx self) (kps, now)) as [y|] eqn:Hobs.
  - destruct (observation_Some_accepted _ _ _ _ Hobs) as (kp & Hkp & Hconf & ->).
    rewrite (update_accepted self kps now kp Hkp Hconf). cbv zeta.
    cbn [set_positions positions going_up rep_count last_rep_time
         max_positions keypoint_idx].
    rewrite Hnone. cbn [direction_changed].
    destruct (_ <? 3)%nat; reflexivity.
  - rewrite (observation_None_discarded _ _ _ Hobs). reflexivity.
Qed.

Lemma update_short_buffer self kps now y :
  observation (keypoint_idx self) (kps, now) = Some y ->
  (length (push_position (positions self) y (max_positions self)) < 3)%nat ->
  going_up (update self kps now).1 = going_up self /\
  rep_count (update self kps now).1 = rep_count self.
Proof.
  intros Hobs Hshort.
  destruct (observation_Some_accepted _ _ _ _ Hobs) as (kp & Hkp & Hconf & ->).
  rewrite (update_accepted self kps now kp Hkp Hconf). cbv zeta.
  cbn [set_positions positions going_up rep_count last_rep_time
       max_positions keypoint_idx].
  apply Nat.ltb_lt in Hshort. rewrite Hshort. cbn. auto.
Qed.

Lemma last_n_length_min {A} n (xs : list A) :
  length (last_n n xs) = Nat.min (length xs) n.
Proof. unfold last_n. rewrite length_drop. lia. Qed.

Lemma warm_up_invariant (calls : list call) :
  let self := run init calls in
  let n := length (observations 9 calls) in
  ((n < 3)%nat -> going_up self = None) /\
  (0 <= rep_count self <= Z.of_nat (n - 3))%Z.
Proof.
  induction calls as [|c calls IH] using rev_ind.
  - cbn. split; [reflexivity | lia].
  - cbv zeta in *. destruct IH as [Hdir Hcount].
    destruct (run_init_buffer calls) as (Hidx & Hcap & Hpos).
    cbv zeta in Hidx, Hcap, Hpos.
    rewrite run_snoc. unfold observations in *. rewrite omap_app, length_app.
    change (omap (observation 9) [c])
      with (match observation 9 c with Some y => [y] | None => [] end).
    set (self := run init calls) in *.
    set (n := length (omap (observation 9) calls)) in *.
    destruct (observation 9 c) as [y|] eqn:Hobs.
    + cbn [length].
      assert (Hobs' : observation (keypoint_idx self) (c.1, c.2) = Some y).
      { rewrite Hidx. destruct c; exact Hobs. }
      assert (Hlen : length (push_position (positions self) y (max_positions self))
                     = Nat.min (n + 1) 10).
      { rewrite Hpos, Hcap, push_position_last_n by lia.
        rewrite last_n_length_min, length_app. cbn. reflexivity. }
      destruct (Nat.lt_ge_cases (n + 1) 3) as [Hsmall | Hbig].
      * destruct (update_short_buffer self c.1 c.2 y Hobs') as [Hg Hr]; [lia|].
        rewrite Hg, Hr. split; [intros _; apply Hdir; lia | lia].
      * split; [lia|].
        destruct (Nat.eq_dec n 2) as [Htwo | Hmore].
        -- rewrite update_without_direction by (apply Hdir; lia). lia.
        -- destruct (update_step self c.1 c.2) as (_ & _ & _ & [[Hr _] | [Hr _]]);
             cbv zeta in Hr; rewrite Hr; lia.
    + cbn [length]. rewrite Nat.add_0_r.
      rewrite observation_None_discarded
        by (rewrite Hidx; destruct c; exact Hobs).
      cbn [fst]. split; assumption.
Qed.

(** X2: a counter built by [RepCounter()] needs three accepted observations
    to establish a direction, so it has counted at most [n - 3] reps after
    [n] accepted observations; in particular none before the fourth. *)
Theorem rep_count_bounded_by_observations (calls : list call) :
  let n := length (observations 9 calls) in
  (0 <= rep_count (run init calls) <= Z.of_nat (n - 3))%Z /\
  ((n <= 3)%nat -> rep_count (run init calls) = 0%Z).
Proof.
  cbv zeta. destruct (warm_up_invariant calls) as [_ Hcount].
  cbv zeta in Hcount. split; [exact Hcount|]. intros Hn.
  replace (length (observations 9 calls) - 3)%nat with 0%nat in Hcount by lia.
  lia.
Qed.

Lemma rep_count_bounded_by_observations_witness :
  rep_count (run init (map Oscillation.sample (seq 0 3))) = 0%Z.
Proof.
  apply (rep_count_bounded_by_observations (map Oscillation.sample (seq 0 3))).
  vm_compute. lia.
Defined.


(** X4: the counter depends on clock differences only: moving the last rep
    time and every clock reading by the same offset [d] gives the same
    buffer, direction and count. *)
Theorem rep_count_ignores_clock_offset (d : Q) self (calls : list call) :
  let shifted := run (set_last_rep_time (last_rep_time self + d) self)
                     (map (fun c => (c.1, (c.2 + d)%Q)) calls) in
  positions shifted = positions (run self calls) /\
  going_up shifted = going_up (run self calls) /\
  rep_count shifted = rep_count (run self calls) /\
  (last_rep_time shifted == last_rep_time (run self calls) + d)%Q.
Proof.
  cbv zeta.
  assert (Hrel : later_by 0 d (run self calls)
                   (run (set_last_rep_time (last_rep_time self + d) self)
                        (map (fun c => (c.1, (c.2 + d)%Q)) calls))).
  { apply run_later_by.
    - induction calls as [|c calls IH]; constructor; [|exact IH].
      split; reflexivity.
    - unfold later_by. cbn. repeat split; lia. }
  destruct Hrel as (_ & Hps & _ & Hdir & Hcount & Hlast).
  repeat split; try assumption. lia.
Qed.

(** X5: [update] returns the count it leaves in the counter, and a single
    call raises the count by one or not at all. *)
Theorem update_returns_count_and_steps_by_one self kps now :
  let r := update self kps now in
  r.2 = rep_count r.1 /\
  (rep_count r.1 = rep_count self \/ rep_count r.1 = (rep_count self + 1)%Z).
Proof.
  cbv zeta. split.
  - destruct (observation (keypoint_idx self) (kps, now)) as [y|] eqn:Hobs.
    + destruct (observation_Some_accepted _ _ _ _ Hobs) as (kp & Hkp & Hconf & ->).
      rewrite (update_accepted self kps now kp Hkp Hconf). cbv zeta.
      destruct (_ <? 3)%nat; reflexivity.
    + rewrite (observation_None_discarded _ _ _ Hobs). reflexivity.
  - destruct (update_step self kps now) as (_ & _ & _ & [[Hr _] | [Hr _]]);
      cbv zeta in Hr; auto.
Qed.

(** X6: [analyze_form] answers ["good"] exactly for lists of at least ten
    keypoints and ["unknown"] otherwise, whatever the exercise type; a list
    it calls ["unknown"] is also too short for a counter tracking index 9,
    which it leaves untouched. *)
Theorem unknown_form_never_counts (kps : list keypoint) (exercise : string) :
  (Session.analyze_form kps exercise = "good" <-> (10 <= length kps)%nat) /\
  (Session.analyze_form kps exercise = "unknown" <-> (length kps < 10)%nat) /\
  (forall self now,
     Session.analyze_form kps exercise = "unknown" ->
     keypoint_idx self = 9%nat ->
     update self kps now = (self, rep_count self)).
Proof.
  unfold Session.analyze_form.
  destruct (Nat.ltb_spec (length kps) 10) as [Hshort | Hlong].
  - rewrite orb_true_r. repeat split; try discriminate; try lia.
    intros self now _ Hidx. apply update_discarded. left. lia.
  - replace (length kps =? 0)%nat with false
      by (symmetry; apply Nat.eqb_neq; lia).
    cbn [orb]. repeat split; try discriminate; try lia.
Qed.

Lemma unknown_form_never_counts_witness :
  Session.analyze_form (replicate 9 ∅) "squat" = "unknown" /\
  update init (replicate 9 ∅) 100 = (init, 0%Z).
Proof.
  destruct (unknown_form_never_counts (replicate 9 ∅) "squat") as (_ & Hu & Hno).
  assert (H : Session.analyze_form (replicate 9 ∅) "squat" = "unknown")
    by (apply Hu; cbn; lia).
  split; [exact H|]. apply Hno; [exact H | reflexivity].
Defined.

End RepCounterMore.

(** ** The connection registry beyond the stated claims *)

Section RegistryMore.
Import ConnectionManager.

Lemma dict_get_set_eq {V} k (v : V) d : dict_get k (dict_set k v d) = Some v.
Proof.
  induction d as [|[k' v'] d IH]; cbn.
  - rewrite String.eqb_refl. reflexivity.
  - destruct (String.eqb k k') eqn:E; cbn; rewrite ?String.eqb_refl, ?E; auto.
Qed.

Lemma dict_get_set_ne {V} k j (v : V) d :
  j <> k -> dict_get j (dict_set k v d) = dict_get j d.
Proof.
  intros Hne. induction d as [|[k' v'] d IH]; cbn.
  - replace (String.eqb j k) with false
      by (symmetry; apply String.eqb_neq; exact Hne). reflexivity.
  - destruct (String.eqb_spec k k') as [<-|Hkk']; cbn.
    + replace (String.eqb j k) with false
        by (symmetry; apply String.eqb_neq; exact Hne). reflexivity.
    + rewrite IH. reflexivity.
Qed.

Lemma dict_del_cons {V} k k' (v : V) d :
  dict_del k ((k', v) :: d) =
  if String.eqb k k' then dict_del k d else (k', v) :: dict_del k d.
Proof.
  unfold dict_del. rewrite filter_cons. cbn [fst].
  destruct (String.eqb k k'); cbn; reflexivity.
Qed.

Lemma dict_get_del_eq {V} k (d : list (string * V)) :
  dict_get k (dict_del k d) = None.
Proof.
  induction d as [|[k' v'] d IH]; [reflexivity|].
  rewrite dict_del_cons. destruct (String.eqb k k') eqn:E; [exact IH|].
  cbn. rewrite E. exact IH.
Qed.

Lemma dict_get_del_ne {V} k j (d : list (string * V)) :
  j <> k -> dict_get j (dict_del k d) = dict_get j d.
Proof.
  intros Hne. induction d as [|[k' v'] d IH]; [reflexivity|].
  rewrite dict_del_cons. destruct (String.eqb_spec k k') as [<-|Hkk']; cbn.
  - replace (String.eqb j k) with false
      by (symmetry; apply String.eqb_neq; exact Hne). exact IH.
  - rewrite IH. reflexivity.
Qed.

Lemma dict_del_absent {V} k (d : list (string * V)) :
  dict_get k d = None -> dict_del k d = d.
Proof.
  induction d as [|[k' v'] d IH]; [reflexivity|].
  rewrite dict_del_cons. cbn. destruct (String.eqb k k'); [discriminate|].
  intros H. rewrite (IH H). reflexivity.
Qed.

Lemma dict_del_set_fresh {V} k (v : V) d :
  dict_get k d = None -> dict_del k (dict_set k v d) = d.
Proof.
  induction d as [|[k' v'] d IH]; cbn [dict_set dict_get].
  - intros _. rewrite dict_del_cons, String.eqb_refl. reflexivity.
  - destruct (String.eqb k k') eqn:E; [discriminate|].
    intros H. rewrite dict_del_cons, E, (IH H). reflexivity.
Qed.

Lemma dict_set_keys_present {V} k (v v0 : V) d :
  dict_get k d = Some v0 -> map fst (dict_set k v d) = map fst d.
Proof.
  induction d as [|[k' v'] d IH]; cbn; [discriminate|].
  destruct (String.eqb_spec k k') as [<-|Hne]; cbn; [reflexivity|].
  intros H. rewrite (IH H). reflexivity.
Qed.

Lemma dict_set_keys_fresh {V} k (v : V) d :
  dict_get k d = None -> map fst (dict_set k v d) = map fst d ++ [k].
Proof.
  induction d as [|[k' v'] d IH]; cbn; [reflexivity|].
  destruct (String.eqb_spec k k') as [<-|Hne]; cbn; [discriminate|].
  intros H. rewrite (IH H). reflexivity.
Qed.

Lemma dict_get_None_not_key {V} k (d : list (string * V)) :
  dict_get k d = None <-> ~ In k (map fst d).
Proof.
  induction d as [|[k' v'] d IH]; cbn; [tauto|].
  destruct (String.eqb_spec k k') as [<-|Hne].
  - split; [discriminate | intros H; exfalso; apply H; auto].
  - rewrite IH. split; [intros H [Heq|Hin]; [congruence | tauto] | tauto].
Qed.

Lemma connect_run ws client_id (w : world) :
  connect ws client_id w =
  (inr tt,
   mk (dict_set client_id ws (active_connections w))
      (<[client_id := clock w (ticks w)]> (last_activity w))
      (accepts_send w) (delivered w) (clock w) (S (ticks w))).
Proof. reflexivity. Qed.

(** X7: [connect] registers the socket under the client id and stamps the
    clock reading; a reused id replaces the old socket in place, so the ids
    stay unique, and every other client keeps its socket and its stamp. *)
Theorem connect_registers ws client_id (w : world) :
  let r := connect ws client_id w in
  r.1 = inr tt /\
  dict_get client_id (active_connections r.2) = Some ws /\
  last_activity r.2 !! client_id = Some (clock w (ticks w)) /\
  (forall other, other <> client_id ->
     dict_get other (active_connections r.2) = dict_get other (active_connections w) /\
     last_activity r.2 !! other = last_activity w !! other) /\
  (NoDup (map fst (active_connections w)) ->
   NoDup (map fst (active_connections r.2))) /\
  delivered r.2 = delivered w.
Proof.
  cbv zeta. unfold connect, IO.bind, IO.get, set_active_connections,
    set_last_activity, IO.modify, time_time. cbn.
  split; [reflexivity|]. split; [apply dict_get_set_eq|].
  split; [apply lookup_insert_eq|]. split; [|split; [|reflexivity]].
  - intros other Hne. split; [apply dict_get_set_ne; exact Hne|].
    apply lookup_insert_ne. congruence.
  - intros Hnodup.
    destruct (dict_get client_id (active_connections w)) as [ws0|] eqn:Hreg.
    + rewrite (dict_set_keys_present _ _ _ _ Hreg). exact Hnodup.
    + rewrite (dict_set_keys_fresh _ _ _ Hreg).
      apply NoDup_app. split; [exact Hnodup|]. split.
      * intros x Hx Hx'. apply list_elem_of_In in Hx, Hx'.
        destruct Hx' as [<-|[]].
        apply dict_get_None_not_key in Hreg. contradiction.
      * apply NoDup_singleton.
Qed.

Lemma connect_registers_witness :
  let w := Scenario.two_clients Scenario.all_open in
  let r := connect 7 "a" w in
  dict_get "a" (active_connections r.2) = Some 7%nat /\
  dict_get "b" (active_connections r.2) = Some 2%nat /\
  NoDup (map fst (active_connections r.2)).
Proof.
  intros w r. subst r.
  destruct (connect_registers 7 "a" w) as (_ & Hreg & _ & Hother & Hnodup & _).
  split; [exact Hreg|]. split.
  - assert (Hb : "b" <> "a") by discriminate.
    rewrite (proj1 (Hother "b" Hb)). reflexivity.
  - apply Hnodup. compute_done.
Defined.

Lemma disconnect_run client_id (w : world) :
  disconnect client_id w =
  (inr tt,
   mk (dict_del client_id (active_connections w))
      (delete client_id (last_activity w))
      (accepts_send w) (delivered w) (clock w) (ticks w)).
Proof.
  destruct w as [conns acts open log clk n].
  unfold disconnect, IO.bind, IO.get, set_active_connections,
    set_last_activity, IO.modify, IO.ret.
  cbn [active_connections last_activity accepts_send delivered clock ticks].
  destruct (dict_get client_id conns) as [ws|] eqn:Hreg.
  - rewrite bool_decide_eq_true_2 by eauto. cbn.
    destruct (acts !! client_id) eqn:Hact.
    + rewrite bool_decide_eq_true_2 by eauto. reflexivity.
    + rewrite bool_decide_eq_false_2 by (intros [? ?]; discriminate).
      rewrite delete_id by exact Hact. reflexivity.
  - rewrite bool_decide_eq_false_2 by (intros [? ?]; discriminate). cbn.
    rewrite (dict_del_absent _ _ Hreg).
    destruct (acts !! client_id) eqn:Hact.
    + rewrite bool_decide_eq_true_2 by eauto. reflexivity.
    + rewrite bool_decide_eq_false_2 by (intros [? ?]; discriminate).
      rewrite delete_id by exact Hact. reflexivity.
Qed.

(** X8: [disconnect] never raises; afterwards the client has neither a
    socket nor an activity stamp, every other client keeps both, and
    nothing is sent.  Disconnecting a client that is not registered changes
    nothing, so a second [disconnect] is harmless. *)
Theorem disconnect_unregisters client_id (w : world) :
  let r := disconnect client_id w in
  r.1 = inr tt /\
  dict_get client_id (active_connections r.2) = None /\
  last_activity r.2 !! client_id = None /\
  (forall other, other <> client_id ->
     dict_get other (active_connections r.2) = dict_get other (active_connections w) /\
     last_activity r.2 !! other = last_activity w !! other) /\
  delivered r.2 = delivered w /\
  (dict_get client_id (active_connections w) = None ->
   last_activity w !! client_id = None -> r.2 = w) /\
  disconnect client_id r.2 = (inr tt, r.2).
Proof.
  cbv zeta. rewrite !disconnect_run.
  cbn [fst snd active_connections last_activity accepts_send delivered clock ticks].
  split; [reflexivity|]. split; [apply dict_get_del_eq|].
  split; [apply lookup_delete_eq|]. split; [|split; [reflexivity|split]].
  - intros other Hne. split; [apply dict_get_del_ne; exact Hne|].
    apply lookup_delete_ne. congruence.
  - intros Hreg Hact. rewrite (dict_del_absent _ _ Hreg), (delete_id _ _ Hact).
    destruct w; reflexivity.
  - rewrite (dict_del_absent client_id (dict_del _ _))
      by apply dict_get_del_eq.
    rewrite (delete_id (delete _ _)) by apply lookup_delete_eq.
    reflexivity.
Qed.

Lemma disconnect_unregisters_witness :
  let w := Scenario.two_clients Scenario.all_open in
  active_connections (disconnect "a" w).2 = [("b", 2%nat)] /\
  (disconnect "zoe" w).2 = w.
Proof.
  intros w. split; [vm_compute; reflexivity|].
  apply (disconnect_unregisters "zoe" w); vm_compute; reflexivity.
Defined.

(** X9: for a client id that is not registered, [connect] followed by
    [disconnect] gives back the registry as it was; only the clock has been
    read once. *)
Theorem connect_then_disconnect_restores ws client_id (w : world) :
  dict_get client_id (active_connections w) = None ->
  last_activity w !! client_id = None ->
  (connect ws client_id ;;; disconnect client_id)%io w =
  (inr tt,
   mk (active_connections w) (last_activity w) (accepts_send w) (delivered w)
      (clock w) (S (ticks w))).
Proof.
  intros Hreg Hact. unfold IO.bind at 1.
  rewrite connect_run, disconnect_run.
  cbn [active_connections last_activity accepts_send delivered clock ticks].
  rewrite (dict_del_set_fresh _ _ _ Hreg), delete_insert_eq,
    (delete_id _ _ Hact).
  reflexivity.
Qed.

Lemma connect_then_disconnect_restores_witness :
  let w := Scenario.two_clients Scenario.all_open in
  active_connections ((connect 3 "c" ;;; disconnect "c")%io w).2
    = active_connections w.
Proof.
  intros w.
  rewrite (connect_then_disconnect_restores 3 "c" w);
    [reflexivity | vm_compute; reflexivity | vm_compute; reflexivity].
Defined.

End RegistryMore.

(** ** Sends, heartbeats and broadcasts *)

Section DeliveryMore.
Import ConnectionManager.

(** The body of the [for] loop of [broadcast]. *)
Local Abbreviation deliver message :=
  (fun item : string * websocket =>
     (send_json item.2 message ;;;
      now <- time_time ;;
      w <- IO.get ;;
      set_last_activity (<[item.1 := now]> (last_activity w)))%io).

Lemma broadcast_unfold message (w : world) :
  broadcast message w = IO.for_each (active_connections w) (deliver message) w.
Proof. reflexivity. Qed.

(** The loop over a prefix of open sockets. *)
Lemma deliver_prefix message pre :
  forall (w : world) rest,
    Forall (fun item => accepts_send w item.2 = true) pre ->
    exists w1,
      IO.for_each (pre ++ rest) (deliver message) w =
        IO.for_each rest (deliver message) w1 /\
      active_connections w1 = active_connections w /\
      accepts_send w1 = accepts_send w /\
      clock w1 = clock w /\
      ticks w1 = (ticks w + length pre)%nat /\
      delivered w1 = delivered w ++ map (fun item => (item.2, message)) pre /\
      (forall cid, ~ In cid (map fst pre) ->
                   last_activity w1 !! cid = last_activity w !! cid) /\
      (forall cid, In cid (map fst pre) ->
                   exists i, (i < length pre)%nat /\
                             last_activity w1 !! cid = Some (clock w (ticks w + i)%nat)).
Proof.
  induction pre as [|item pre IH]; intros w rest Hopen.
  - exists w. cbn. rewrite Nat.add_0_r, app_nil_r.
    repeat split; try reflexivity. intros cid [].
  - inversion Hopen as [|? ? Hitem Hpre]; subst.
    cbn [app IO.for_each]. unfold IO.bind at 1.
    rewrite (broadcast_step message item w Hitem).
    match goal with
    | |- context [IO.for_each (pre ++ rest) _ ?w0] =>
      destruct (IH w0 rest) as
        (w1 & Hrun & Hconns & Hacc & Hclk & Hticks & Hlog & Hkeep & Hstamp);
        [exact Hpre|]
    end.
    cbn [active_connections accepts_send clock ticks delivered last_activity]
      in Hconns, Hacc, Hclk, Hticks, Hlog, Hkeep, Hstamp.
    exists w1. rewrite Hrun, Hconns, Hacc, Hclk, Hticks, Hlog, <- app_assoc.
    cbn [length map app fst].
    repeat split; try reflexivity; try lia.
    + intros cid Hnot.
      rewrite Hkeep by (intros Hin; apply Hnot; right; exact Hin).
      apply lookup_insert_ne. intros Heq. apply Hnot. left. exact Heq.
    + intros cid Hin.
      destruct (in_dec string_dec cid (map fst pre)) as [Hlater | Hfirst].
      * destruct (Hstamp cid Hlater) as (i & Hi & Hact).
        exists (S i). split; [lia|]. rewrite Hact. do 2 f_equal. lia.
      * destruct Hin as [<- | Hin]; [|contradiction].
        exists 0%nat. split; [lia|]. rewrite Hkeep by exact Hfirst.
        rewrite Nat.add_0_r. apply lookup_insert_eq.
Qed.

(** X10: when every registered socket accepts the send, [broadcast] reads
    the clock once per connection and leaves every registered client with
    one of those readings as its last activity; clients that are not
    registered keep their stamp, and the message reaches every registered
    socket in registration order. *)
Theorem broadcast_stamps_every_client message (w : world) :
  Forall (fun item => accepts_send w item.2 = true) (active_connections w) ->
  exists w',
    broadcast message w = (inr tt, w') /\
    ticks w' = (ticks w + length (active_connections w))%nat /\
    delivered w' =
      delivered w ++ map (fun item => (item.2, message)) (active_connections w) /\
    (forall cid, dict_get cid (active_connections w) = None ->
                 last_activity w' !! cid = last_activity w !! cid) /\
    (forall cid ws, dict_get cid (active_connections w) = Some ws ->
       exists i, (i < length (active_connections w))%nat /\
                 last_activity w' !! cid = Some (clock w (ticks w + i)%nat)).
Proof.
  intros Hopen. rewrite broadcast_unfold.
  destruct (deliver_prefix message (active_connections w) w [] Hopen)
    as (w1 & Hrun & _ & _ & _ & Hticks & Hlog & Hkeep & Hstamp).
  rewrite app_nil_r in Hrun. exists w1. rewrite Hrun.
  repeat split; try assumption.
  - intros cid Hnone. apply Hkeep. apply dict_get_None_not_key. exact Hnone.
  - intros cid ws Hsome. apply Hstamp.
    destruct (in_dec string_dec cid (map fst (active_connections w)))
      as [Hin | Hnot]; [exact Hin|].
    apply dict_get_None_not_key in Hnot. congruence.
Qed.

Lemma broadcast_stamps_every_client_witness :
  let w := Scenario.two_clients Scenario.all_open in
  exists w', broadcast Scenario.notice w = (inr tt, w') /\ ticks w' = 4%nat.
Proof.
  intros w.
  destruct (broadcast_stamps_every_client Scenario.notice w)
    as (w' & Hrun & Hticks & _).
  - repeat constructor.
  - exists w'. split; [exact Hrun | exact Hticks].
Defined.

(** X11: [broadcast] stops at the first socket that refuses the send: the
    exception leaves the call, the connections registered before it have
    the message, and no connection registered after it is tried. *)
Theorem broadcast_stops_at_first_failure message (w : world) pre cid ws post :
  active_connections w = pre ++ (cid, ws) :: post ->
  Forall (fun item => accepts_send w item.2 = true) pre ->
  accepts_send w ws = false ->
  exists w',
    broadcast message w = (inl (Exception "websocket is closed"), w') /\
    delivered w' = delivered w ++ map (fun item => (item.2, message)) pre /\
    ticks w' = (ticks w + length pre)%nat /\
    active_connections w' = active_connections w.
Proof.
  intros Hitems Hopen Hstale. rewrite broadcast_unfold, Hitems.
  destruct (deliver_prefix message pre w ((cid, ws) :: post) Hopen)
    as (w1 & Hrun & Hconns & Hacc & _ & Hticks & Hlog & _).
  exists w1. rewrite Hrun. cbn [IO.for_each]. unfold IO.bind, send_json.
  cbn [snd]. rewrite Hacc, Hstale. rewrite <- Hitems.
  repeat split; assumption.
Qed.

Lemma broadcast_stops_at_first_failure_witness :
  let w := Scenario.two_clients (fun ws => negb (ws =? 2)%nat) in
  exists w',
    broadcast Scenario.notice w = (inl (Exception "websocket is closed"), w') /\
    delivered w' = [(1%nat, Scenario.notice)].
Proof.
  intros w.
  destruct (broadcast_stops_at_first_failure Scenario.notice w
              [("a", 1%nat)] "b" 2%nat [])
    as (w' & Hrun & Hlog & _).
  - reflexivity.
  - repeat constructor.
  - reflexivity.
  - exists w'. split; [exact Hrun | exact Hlog].
Defined.

(** X12: [send_message] leaves no trace unless it delivers: for a client
    that is not registered it returns without any effect, and for a
    registered client whose socket refuses the send it raises without
    touching the activity stamp or reading the clock. *)
Theorem send_message_leaves_no_trace client_id message (w : world) :
  match dict_get client_id (active_connections w) with
  | None => send_message client_id message w = (inr tt, w)
  | Some ws =>
    accepts_send w ws = false ->
    send_message client_id message w = (inl (Exception "websocket is closed"), w)
  end.
Proof.
  destruct (dict_get client_id (active_connections w)) as [ws|] eqn:Hreg.
  - intros Hstale. unfold send_message. unfold IO.bind at 1. unfold IO.get at 1.
    rewrite Hreg. unfold IO.bind, send_json. rewrite Hstale. reflexivity.
  - unfold send_message. unfold IO.bind at 1. unfold IO.get at 1.
    rewrite Hreg. reflexivity.
Qed.

Lemma send_message_leaves_no_trace_witness :
  let w := Scenario.two_clients Scenario.first_stale in
  send_message "zoe" Scenario.notice w = (inr tt, w) /\
  send_message "a" Scenario.notice w = (inl (Exception "websocket is closed"), w).
Proof.
  intros w. split.
  - exact (send_message_leaves_no_trace "zoe" Scenario.notice w).
  - apply (send_message_leaves_no_trace "a" Scenario.notice w). reflexivity.
Defined.

Lemma heartbeat_loop_open rounds client_id ws :
  forall w : world,
    dict_get client_id (active_connections w) = Some ws ->
    accepts_send w ws = true ->
    heartbeat_loop rounds client_id w =
    (inr tt,
     mk (active_connections w) (last_activity w) (accepts_send w)
        (delivered w ++ replicate rounds (ws, heartbeat_message))
        (clock w) (ticks w)).
Proof.
  induction rounds as [|rounds IH]; intros w Hreg Hopen.
  - cbn. rewrite app_nil_r. destruct w; reflexivity.
  - cbn [heartbeat_loop]. unfold IO.bind at 1. unfold IO.get at 1.
    rewrite Hreg. unfold IO.bind at 1. unfold IO.get at 1. rewrite Hreg.
    unfold IO.bind at 1. unfold send_json. rewrite Hopen.
    rewrite IH by assumption.
    cbn [active_connections last_activity accepts_send delivered clock ticks].
    rewrite <- app_assoc. reflexivity.
Qed.

(** X13: while the client stays registered on a socket that accepts sends,
    [rounds] heartbeat rounds deliver exactly [rounds] heartbeat markers to
    that socket and change nothing else: not the registry, not any activity
    stamp, not the clock position. *)
Theorem heartbeat_delivers_markers_only rounds client_id ws (w : world) :
  dict_get client_id (active_connections w) = Some ws ->
  accepts_send w ws = true ->
  heartbeat rounds client_id w =
  (inr tt,
   mk (active_connections w) (last_activity w) (accepts_send w)
      (delivered w ++ replicate rounds (ws, heartbeat_message))
      (clock w) (ticks w)).
Proof.
  intros Hreg Hopen. unfold heartbeat, IO.try_except.
  rewrite (heartbeat_loop_open rounds client_id ws w Hreg Hopen). reflexivity.
Qed.

Lemma heartbeat_delivers_markers_only_witness :
  let w := Scenario.two_clients Scenario.all_open in
  delivered (heartbeat 3 "b" w).2 = replicate 3 (2%nat, heartbeat_message) /\
  last_activity (heartbeat 3 "b" w).2 = last_activity w.
Proof.
  intros w.
  rewrite (heartbeat_delivers_markers_only 3 "b" 2%nat w);
    [split; reflexivity | reflexivity | reflexivity].
Defined.

(** X14: [heartbeat] never raises.  For a client that is not registered it
    does nothing; when the socket refuses the heartbeat the client is
    de-registered (socket and activity stamp removed) and every other
    client keeps its entries. *)
Theorem heartbeat_failure_unregisters rounds client_id (w : world) :
  (heartbeat rounds client_id w).1 = inr tt /\
  (dict_get client_id (active_connections w) = None ->
   heartbeat rounds client_id w = (inr tt, w)) /\
  (forall ws,
     dict_get client_id (active_connections w) = Some ws ->
     accepts_send w ws = false ->
     heartbeat (S rounds) client_id w = disconnect client_id w).
Proof.
  split; [|split].
  - unfold heartbeat, IO.try_except.
    destruct (heartbeat_loop rounds client_id w) as [[e|[]] w1];
      [rewrite disconnect_run|]; reflexivity.
  - intros Hnone. unfold heartbeat, IO.try_except.
    destruct rounds as [|rounds]; [reflexivity|].
    cbn [heartbeat_loop]. unfold IO.bind at 1. unfold IO.get at 1.
    rewrite Hnone. reflexivity.
  - intros ws Hreg Hstale. unfold heartbeat, IO.try_except.
    cbn [heartbeat_loop]. unfold IO.bind at 1. unfold IO.get at 1.
    rewrite Hreg. unfold IO.bind at 1. unfold IO.get at 1. rewrite Hreg.
    unfold IO.bind at 1. unfold send_json. rewrite Hstale. reflexivity.
Qed.

Lemma heartbeat_failure_unregisters_witness :
  let w := Scenario.two_clients Scenario.first_stale in
  let r := heartbeat 2 "a" w in
  r.1 = inr tt /\ active_connections r.2 = [("b", 2%nat)] /\
  heartbeat 2 "zoe" w = (inr tt, w).
Proof.
  intros w r. subst r.
  destruct (heartbeat_failure_unregisters 1 "a" w) as (Hok & _ & Hfail).
  destruct (heartbeat_failure_unregisters 2 "zoe" w) as (_ & Hnone & _).
  rewrite (Hfail 1%nat); [|reflexivity|reflexivity].
  split; [reflexivity|]. split; [reflexivity|]. apply Hnone. reflexivity.
Defined.

End DeliveryMore.

(** ** The inference client and the frame reply beyond the stated claims *)

Section InferenceMore.
Import InferenceClient Session.

Lemma call_inference_service_run frame_data (w : http) :
  call_inference_service frame_data w =
  (inr (match head (replies w) with
        | Some (inr resp) =>
          if (status resp =? 200)%Z then
            match body resp with
            | inr p => p
            | inl TimeoutError => timeout_error
            | inl (Exception msg) => transport_error msg
            end
          else status_error (status resp)
        | Some (inl (Exception msg)) => transport_error msg
        | Some (inl TimeoutError) | None => timeout_error
        end),
   {| environ := environ w; replies := tail (replies w);
      requests := requests w ++ [inference_request w frame_data] |}).
Proof.
  unfold call_inference_service, IO.bind, IO.try_except, getenv, post,
    response_json, IO.ret.
  destruct (replies w) as [|[[|msg]|resp] rest]; cbn [head tail]; try reflexivity.
  destruct (status resp =? 200)%Z; cbn [negb]; [|reflexivity].
  destruct (body resp) as [[|msg]|p]; reflexivity.
Qed.

(** X15: the call hands back the service's payload only for status 200 with
    a body that decodes; every other status, the other 2xx codes included,
    gives the status error, and a body of a 200 response that fails to
    decode gives the timeout or the generic error payload. *)
Theorem inference_payload_only_on_200 frame_data (w : http) resp rest :
  replies w = inr resp :: rest ->
  let result := (call_inference_service frame_data w).1 in
  (status resp <> 200%Z -> result = inr (status_error (status resp))) /\
  (status resp = 200%Z ->
   result = inr (match body resp with
                 | inr p => p
                 | inl TimeoutError => timeout_error
                 | inl (Exception msg) => transport_error msg
                 end)).
Proof.
  intros Hreplies. cbv zeta. rewrite call_inference_service_run, Hreplies.
  cbn [head fst]. split; intros Hstatus.
  - apply Z.eqb_neq in Hstatus. rewrite Hstatus. reflexivity.
  - rewrite Hstatus. reflexivity.
Qed.

Lemma inference_payload_only_on_200_witness :
  let w := {| environ := ∅;
              replies := [inr {| status := 204; body := inr ∅ |}];
              requests := [] |} in
  (call_inference_service "frame" w).1 =
    inr (error_result "Inference service error: 204").
Proof.
  intros w.
  destruct (inference_payload_only_on_200 "frame" w
              {| status := 204; body := inr ∅ |} []) as [Hother _];
    [reflexivity|].
  rewrite Hother; [reflexivity | discriminate].
Defined.

(** X16: whatever the service does, the payload the call returns either
    carries an [error] key or is, unchanged, the decoded body of a 200
    response; so the caller's test for [error] catches every failure. *)
Theorem inference_result_is_error_or_body frame_data (w : http) :
  exists result,
    (call_inference_service frame_data w).1 = inr result /\
    (is_Some (result !! "error") \/
     exists resp, head (replies w) = Some (inr resp) /\
                  status resp = 200%Z /\ body resp = inr result).
Proof.
  rewrite call_inference_service_run. eexists. split; [reflexivity|].
  assert (Herr : forall text, is_Some (error_result text !! "error")).
  { intros text. unfold error_result. rewrite lookup_singleton_eq. eauto. }
  destruct (head (replies w)) as [[[|msg]|resp]|]; try (left; apply Herr).
  destruct (status resp =? 200)%Z eqn:Hstatus; [|left; apply Herr].
  apply Z.eqb_eq in Hstatus.
  destruct (body resp) as [[|msg]|p] eqn:Hbody; try (left; apply Herr).
  right. exists resp. auto.
Qed.

(** X18: a [keypoints] field that is not a keypoint array never moves the
    counter.  If the value is false in Python's sense ([None], [False], 0,
    the empty string) the reply gets the current count and no
    [form_quality]; otherwise the handler either raises or, for a short
    string, answers with the current count. *)
Theorem non_array_keypoints_never_count s (results : payload) now v :
  results !! "error" = None ->
  results !! "keypoints" = Some v ->
  (forall kps, v <> VKeypoints kps) ->
  let count := VInt (RepCounter.rep_count (rep_counter s)) in
  match reply_to_frame s results now with
  | inr (reply, s') =>
    s' = s /\ reply !! "rep_count" = Some count /\
    (truthy v = false -> reply = <["rep_count" := count]> results)
  | inl _ => truthy v = true
  end.
Proof.
  intros Hok Hkps Hnot. cbv zeta. unfold reply_to_frame.
  rewrite (no_error_key _ Hok), Hkps.
  assert (Hsame : set_rep_counter (rep_counter s) s = s) by (destruct s; reflexivity).
  destruct v as [|b|n|x|text|kps]; try (exfalso; exact (Hnot kps eq_refl));
    cbn [rep_counter_update truthy py_len form_of negb].
  - rewrite Hsame. cbn. rewrite lookup_insert_eq. auto.
  - destruct b; cbn; [reflexivity|]. rewrite Hsame, lookup_insert_eq. auto.
  - destruct (n =? 0)%Z; cbn; [|reflexivity].
    rewrite Hsame, lookup_insert_eq. auto.
  - destruct (Qeq_bool x 0); cbn; [|reflexivity].
    rewrite Hsame, lookup_insert_eq. auto.
  - destruct (String.eqb text "") eqn:Hempty; cbn [negb].
    + cbn. rewrite Hsame, lookup_insert_eq. auto.
    + destruct (String.length text <=? RepCounter.keypoint_idx (rep_counter s))%nat;
        [|reflexivity].
      cbv zeta. rewrite Hsame.
      destruct (String.length text <? 10)%nat;
        (split; [reflexivity|]; split; [|discriminate]);
        rewrite lookup_insert_ne by discriminate; apply lookup_insert_eq.
Qed.

Lemma non_array_keypoints_never_count_witness :
  let s := Session.mk RepCounter.init "squat" 0 0 in
  let results : payload := {[ "keypoints" := VNull ]} in
  reply_to_frame s results 100 = inr (<["rep_count" := VInt 0]> results, s).
Proof.
  intros s results.
  pose proof (non_array_keypoints_never_count s results 100 VNull) as H.
  specialize (H eq_refl eq_refl ltac:(discriminate)). cbv zeta in H.
  destruct (reply_to_frame s results 100) as [e|[reply s']];
    [discriminate|].
  destruct H as (-> & _ & Hreply). rewrite (Hreply eq_refl). reflexivity.
Defined.

End InferenceMore.

(** ** The origin gate beyond the stated claims *)

Section OriginGateMore.
Import OriginGate.

(** X20: only the first header whose name is [origin], in any letter case,
    decides: headers before it with other names and everything after it
    are ignored. *)
Theorem first_origin_header_decides settings pre name value post :
  Forall (fun h => lower h.1 <> "origin") pre ->
  lower name = "origin" ->
  origin_header (pre ++ (name, value) :: post) = Some value /\
  cors_validation settings (pre ++ (name, value) :: post) =
    cors_validation settings [("origin", value)].
Proof.
  intros Hpre Hname.
  assert (Hfound : origin_header (pre ++ (name, value) :: post) = Some value).
  { induction Hpre as [|[n v] pre Hn _ IH]; cbn [app origin_header].
    - rewrite Hname. reflexivity.
    - cbn [fst] in Hn. apply String.eqb_neq in Hn. rewrite Hn. exact IH. }
  split; [exact Hfound|]. unfold cors_validation. rewrite Hfound. reflexivity.
Qed.

Lemma first_origin_header_decides_witness :
  origin_header [("Host", "api"); ("ORIGIN", "https://a.example");
                 ("origin", "https://b.example")] = Some "https://a.example".
Proof.
  apply (first_origin_header_decides Endpoint.default_settings
           [("Host", "api")] "ORIGIN" "https://a.example"
           [("origin", "https://b.example")]).
  - repeat constructor. discriminate.
  - reflexivity.
Defined.

End OriginGateMore.

(** ** The websocket endpoint *)

Section EndpointFacts.
Import ConnectionManager Endpoint.

Lemma keeps_ret {A} (a : A) : keeps_sessions (IO.ret a : io server A).
Proof. intros sv. split; [reflexivity | intros c H; exact H]. Qed.

Lemma keeps_raise {A} e : keeps_sessions (raise e : io server A).
Proof. intros sv. split; [reflexivity | intros c H; exact H]. Qed.

Lemma keeps_bind {A B} (m : io server A) (k : A -> io server B) :
  keeps_sessions m -> (forall a, keeps_sessions (k a)) ->
  keeps_sessions (IO.bind m k).
Proof.
  intros Hm Hk sv. unfold IO.bind.
  destruct (Hm sv) as [Hacc Hses]. destruct (m sv) as [[e|a] sv1]; cbn [snd] in *.
  - split; assumption.
  - destruct (Hk a sv1) as [Hacc' Hses']. split; [congruence|].
    intros c H. apply Hses', Hses, H.
Qed.

Lemma keeps_on_manager {A} (m : io world A) : keeps_sessions (on_manager m).
Proof.
  intros sv. unfold on_manager. destruct (m (manager sv)).
  split; [reflexivity | intros c H; exact H].
Qed.

Lemma keeps_on_net {A} (m : io InferenceClient.http A) : keeps_sessions (on_net m).
Proof.
  intros sv. unfold on_net. destruct (m (net sv)).
  split; [reflexivity | intros c H; exact H].
Qed.

Lemma keeps_get_session client_id : keeps_sessions (get_session client_id).
Proof.
  intros sv. unfold get_session.
  destruct (session_data sv !! client_id);
    (split; [reflexivity | intros c H; exact H]).
Qed.

Lemma keeps_put_session client_id s : keeps_sessions (put_session client_id s).
Proof.
  intros sv. unfold put_session, IO.modify. cbn. split; [reflexivity|].
  intros c H. destruct (decide (client_id = c)) as [->|Hne].
  - rewrite lookup_insert_eq. eauto.
  - rewrite lookup_insert_ne by exact Hne. exact H.
Qed.

Lemma keeps_for_each {A} (xs : list A) (body : A -> io server unit) :
  (forall x, keeps_sessions (body x)) -> keeps_sessions (IO.for_each xs body).
Proof.
  intros Hbody. induction xs as [|x xs IH]; cbn [IO.for_each].
  - apply keeps_ret.
  - apply keeps_bind; [apply Hbody | intros _; exact IH].
Qed.

Ltac keeps :=
  repeat first
    [ apply keeps_ret | apply keeps_raise | apply keeps_on_manager
    | apply keeps_on_net | apply keeps_get_session | apply keeps_put_session
    | apply keeps_bind; [|intros ?]
    | match goal with
      | |- keeps_sessions (match ?x with _ => _ end) => destruct x
      | |- keeps_sessions (if ?b then _ else _) => destruct b
      end ].

Lemma keeps_on_message json_loads client_id ws m :
  keeps_sessions (on_message json_loads client_id ws m).
Proof.
  unfold on_message, control_message, frame_message. keeps.
Qed.

Lemma get_session_run client_id s (sv : server) :
  session_data sv !! client_id = Some s -> get_session client_id sv = (inr s, sv).
Proof. intros H. unfold get_session. rewrite H. reflexivity. Qed.

Lemma on_manager_disconnect client_id (sv : server) :
  on_manager (disconnect client_id) sv =
  (inr tt,
   mk_server (disconnect client_id (manager sv)).2 (session_data sv) (net sv)
             (accepted sv)).
Proof. unfold on_manager. rewrite disconnect_run. reflexivity. Qed.

(** X21: a connection attempt the origin gate rejects is refused before
    anything happens (no accept, no registration, no session entry, nothing
    sent).  An approved one never raises out of the endpoint: whatever the
    messages and whichever fault ends the loop, the socket was accepted,
    and on return the client is de-registered while its session entry is
    kept. *)
Theorem endpoint_refuses_or_cleans_up settings json_loads headers ws client_id
    now messages (sv : server) :
  let r := websocket_endpoint settings json_loads headers ws client_id now
             messages sv in
  if OriginGate.cors_validation settings headers then
    r.1 = inr tt /\
    accepted r.2 = accepted sv ++ [ws] /\
    dict_get client_id (active_connections (manager r.2)) = None /\
    last_activity (manager r.2) !! client_id = None /\
    is_Some (session_data r.2 !! client_id) /\
    (forall c, is_Some (session_data sv !! c) -> is_Some (session_data r.2 !! c))
  else r = (inr tt, sv).
Proof.
  intros r. assert (Hr : r = websocket_endpoint settings json_loads headers ws
                               client_id now messages sv) by reflexivity.
  clearbody r. unfold websocket_endpoint in Hr.
  destruct (OriginGate.cors_validation settings headers); [|exact Hr].
  cbn [negb] in Hr.
  set (body := (on_manager (send_json ws welcome) ;;;
                IO.for_each messages (on_message json_loads client_id ws) ;;;
                raise (Exception "WebSocketDisconnect"))%io) in Hr.
  assert (Hbody : keeps_sessions body).
  { unfold body. apply keeps_bind; [apply keeps_on_manager|]. intros _.
    apply keeps_bind; [|intros _; apply keeps_raise].
    apply keeps_for_each. intros m. apply keeps_on_message. }
  unfold IO.bind at 1 in Hr. unfold accept at 1, IO.modify at 1 in Hr.
  unfold IO.bind at 1 in Hr. unfold on_manager at 1 in Hr.
  rewrite connect_run in Hr. unfold IO.bind at 1 in Hr.
  cbn [manager session_data net accepted] in Hr.
  match type of Hr with
  | context [ensure_session client_id now ?s] => set (sv1 := s) in Hr
  end.
  assert (Hensure : exists sessions,
             ensure_session client_id now sv1 =
               (inr tt, mk_server (manager sv1) sessions (net sv1) (accepted sv1)) /\
             is_Some (sessions !! client_id) /\
             forall c, is_Some (session_data sv !! c) -> is_Some (sessions !! c)).
  { unfold ensure_session, IO.bind, IO.get. cbn [session_data sv1].
    destruct (session_data sv !! client_id) as [s|] eqn:Hs.
    - exists (session_data sv). split; [reflexivity|]. rewrite Hs. eauto.
    - exists (<[client_id := new_session now]> (session_data sv)).
      split; [reflexivity|]. rewrite lookup_insert_eq. split; [eauto|].
      intros c Hc. destruct (decide (client_id = c)) as [->|Hne].
      + rewrite lookup_insert_eq. eauto.
      + rewrite lookup_insert_ne by exact Hne. exact Hc. }
  destruct Hensure as (sessions & Hrun1 & Hmine & Hothers).
  rewrite Hrun1 in Hr.
  set (sv2 := mk_server (manager sv1) sessions (net sv1) (accepted sv1)) in Hr.
  unfold IO.try_except in Hr.
  pose proof (Hbody sv2) as [Hacc Hses].
  destruct (body sv2) as [[e|[]] sv3] eqn:Hrun; cbn [snd] in Hacc, Hses.
  - rewrite on_manager_disconnect, disconnect_run in Hr. subst r.
    cbn [fst snd manager session_data accepted active_connections last_activity].
    split; [reflexivity|]. split; [rewrite Hacc; reflexivity|].
    split; [apply dict_get_del_eq|]. split; [apply lookup_delete_eq|].
    split; [apply Hses, Hmine|]. intros c Hc. apply Hses, Hothers, Hc.
  - (* the loop cannot end normally: its last step raises *)
    exfalso. unfold body, IO.bind in Hrun.
    destruct (on_manager (send_json ws welcome) sv2) as [[?|?] ?];
      [discriminate|].
    destruct (IO.for_each messages _ _) as [[?|?] ?]; discriminate.
Qed.

Lemma on_message_control json_loads client_id ws m control_data :
  starts_with_brace (data m) = true ->
  json_loads (data m) = Some control_data ->
  on_message json_loads client_id ws m = control_message client_id ws control_data.
Proof. intros Hbrace Hparse. unfold on_message. rewrite Hbrace, Hparse. reflexivity. Qed.

Lemma on_message_frame json_loads client_id ws m :
  starts_with_brace (data m) = false \/ json_loads (data m) = None ->
  on_message json_loads client_id ws m = frame_message client_id ws m.
Proof.
  intros [Hplain | Hbad]; unfold on_message.
  - rewrite Hplain. reflexivity.
  - rewrite Hbad. destruct (starts_with_brace (data m)); reflexivity.
Qed.

Lemma after_control_unchanged s (control_data : gmap string string) :
  control_data !! "exercise_type" = None ->
  control_data !! "action" <> Some "reset" ->
  after_control s control_data = s.
Proof.
  intros Htype Haction. unfold after_control. rewrite Htype.
  rewrite bool_decide_eq_false_2 by (intros [? ?]; discriminate).
  rewrite bool_decide_eq_false_2 by exact Haction.
  destruct s; reflexivity.
Qed.

(** X22: a text that starts with a brace and decodes as JSON is a control
    message: it is answered with [{"status": "ok"}] and never reaches the
    inference service or the frame statistics.  The rep counter starts over
    exactly when the message names an exercise type or asks for a reset;
    the exercise type changes only when the message names one. *)
Theorem control_message_effect json_loads client_id ws m control_data
    (sv : server) s :
  starts_with_brace (data m) = true ->
  json_loads (data m) = Some control_data ->
  session_data sv !! client_id = Some s ->
  accepts_send (manager sv) ws = true ->
  on_message json_loads client_id ws m sv =
  (inr tt,
   mk_server (send_json ws ok (manager sv)).2
             (<[client_id := after_control s control_data]> (session_data sv))
             (net sv) (accepted sv)) /\
  delivered (send_json ws ok (manager sv)).2 = delivered (manager sv) ++ [(ws, ok)] /\
  (control_data !! "exercise_type" = None ->
   control_data !! "action" <> Some "reset" ->
   after_control s control_data = s).
Proof.
  intros Hbrace Hparse Hs Hopen.
  rewrite (on_message_control _ _ _ _ _ Hbrace Hparse).
  split; [|split; [unfold send_json; rewrite Hopen; reflexivity
                  | apply after_control_unchanged]].
  unfold control_message, after_control.
  destruct (control_data !! "exercise_type") as [e|] eqn:Htype;
    destruct (bool_decide (control_data !! "action" = Some "reset")) eqn:Hreset;
    rewrite ?bool_decide_eq_true_2 by eauto;
    rewrite ?bool_decide_eq_false_2 by (intros [? ?]; discriminate);
    unfold IO.bind, get_session, put_session, IO.modify, IO.ret, on_manager;
    cbn [session_data manager net accepted orb default];
    rewrite ?Hs; cbn [session_data manager net accepted];
    rewrite ?lookup_insert_eq; cbn [session_data manager net accepted];
    rewrite ?lookup_insert_eq; cbn [session_data manager net accepted];
    rewrite ?insert_insert_eq;
    destruct (send_json ws ok (manager sv)) as [r w1] eqn:Hsend;
    unfold send_json in Hsend; rewrite Hopen in Hsend;
    injection Hsend as <- <-; cbn [snd]; try reflexivity.
  rewrite insert_id by (rewrite Hs; destruct s; reflexivity).
  reflexivity.
Qed.

Lemma control_message_effect_witness :
  let s := Session.mk (RepCounter.run RepCounter.init (Oscillation.oscillations 2))
                      "squat" 250 16 in
  let sv := mk_server (Scenario.two_clients Scenario.all_open) {[ "a" := s ]}
              {| InferenceClient.environ := ∅; InferenceClient.replies := [];
                 InferenceClient.requests := [] |} [] in
  let json_loads (text : string) : option (gmap string string) :=
    if String.eqb text "{}" then Some ∅ else None in
  let r := on_message json_loads "a" 1
             {| data := "{}"; frame_time := 251; rep_time := 251 |} sv in
  r.1 = inr tt /\
  session_data r.2 !! "a" = Some s /\
  net r.2 = net sv /\
  last (delivered (manager r.2)) = Some (1%nat, ok).
Proof.
  intros s sv json_loads r. subst r.
  destruct (control_message_effect json_loads "a" 1
              {| data := "{}"; frame_time := 251; rep_time := 251 |} ∅ sv s)
    as (Hrun & _ & Hsame); [reflexivity | reflexivity | reflexivity | reflexivity |].
  assert (Hkeep : after_control s ∅ = s).
  { apply Hsame; [apply lookup_empty | rewrite lookup_empty; discriminate]. }
  rewrite Hrun, Hkeep.
  cbn [fst snd session_data net manager]. rewrite lookup_insert_eq.
  split; [reflexivity|]. split; [reflexivity|]. split; reflexivity.
Defined.

Lemma frame_message_counted client_id ws m (sv : server) s :
  session_data sv !! client_id = Some s ->
  frame_message client_id ws m sv =
  (let sv1 := mk_server (manager sv)
                (<[client_id := count_frame s (frame_time m)]> (session_data sv))
                (net sv) (accepted sv) in
   if ((Session.processed_frames s + 1) mod 100 =? 0)%Z
      && Qeq_bool (frame_time m - Session.last_frame_time s) 0
   then (inl (Exception "float division by zero"), sv1)
   else
     (analysis_results <-
        on_net (InferenceClient.call_inference_service (data m)) ;;
      s1 <- get_session client_id ;;
      match Session.reply_to_frame s1 analysis_results (rep_time m) with
      | inl e => raise e
      | inr (reply, s') =>
        put_session client_id s' ;;;
        on_manager (send_json ws reply)
      end)%io sv1).
Proof.
  intros Hs. unfold frame_message.
  unfold IO.bind at 1. rewrite (get_session_run _ _ _ Hs).
  unfold IO.bind at 1. unfold put_session at 1, IO.modify at 1.
  unfold IO.bind at 1. unfold get_session at 1.
  cbn [session_data]. rewrite lookup_insert_eq.
  unfold IO.bind at 1. unfold put_session at 1, IO.modify at 1.
  cbn [session_data manager net accepted Session.rep_counter
       Session.exercise_type Session.last_frame_time Session.processed_frames].
  rewrite insert_insert_eq.
  unfold IO.bind at 1. unfold get_session at 1.
  cbn [session_data]. rewrite lookup_insert_eq.
  cbn [Session.processed_frames]. unfold IO.bind at 1.
  cbv zeta. unfold count_frame.
  destruct ((Session.processed_frames s + 1) mod 100 =? 0)%Z; cbn [andb];
    [|reflexivity].
  destruct (Qeq_bool _ 0); reflexivity.
Qed.

(** X23: a text that is not a control message is a frame.  The frame
    statistics divide by the time since the previous frame
    when they log, which is at every 100th frame: if that frame carries the
    same clock reading as the one before it, the handler raises a division
    by zero after counting the frame and before calling the inference
    service, and nothing is sent. *)
Theorem hundredth_frame_with_no_elapsed_time_raises json_loads client_id ws m
    (sv : server) s :
  starts_with_brace (data m) = false \/ json_loads (data m) = None ->
  session_data sv !! client_id = Some s ->
  ((Session.processed_frames s + 1) mod 100 = 0)%Z ->
  (frame_time m == Session.last_frame_time s)%Q ->
  on_message json_loads client_id ws m sv =
  (inl (Exception "float division by zero"),
   mk_server (manager sv)
     (<[client_id := count_frame s (frame_time m)]> (session_data sv))
     (net sv) (accepted sv)).
Proof.
  intros Hframe Hs Hhundred Hsame.
  rewrite (on_message_frame _ _ _ _ Hframe).
  rewrite (frame_message_counted _ _ _ _ _ Hs).
  cbv zeta. replace (_ mod 100 =? 0)%Z with true
    by (symmetry; apply Z.eqb_eq; exact Hhundred).
  replace (Qeq_bool _ 0) with true; [reflexivity|].
  symmetry. apply Qeq_bool_iff. rewrite Hsame. ring.
Qed.

Lemma hundredth_frame_with_no_elapsed_time_raises_witness :
  let s := Session.mk RepCounter.init "squat" 250 99 in
  let sv := mk_server (Scenario.two_clients Scenario.all_open) {[ "a" := s ]}
              {| InferenceClient.environ := ∅; InferenceClient.replies := [];
                 InferenceClient.requests := [] |} [] in
  let r := on_message (fun _ => None) "a" 1
             {| data := "frame"; frame_time := 250; rep_time := 250 |} sv in
  r.1 = inl (Exception "float division by zero") /\
  InferenceClient.requests (net r.2) = [] /\
  Session.processed_frames <$> (session_data r.2 !! "a") = Some 100%Z.
Proof.
  intros s sv r. subst r.
  rewrite (hundredth_frame_with_no_elapsed_time_raises (fun _ => None) "a" 1 _ sv s);
    [ | left; reflexivity | reflexivity | reflexivity | reflexivity ].
  cbn [fst snd net session_data]. rewrite lookup_insert_eq.
  repeat split.
Defined.

(** X24: any other frame is counted, sent to the inference service once, and
    answered with the reply [reply_to_frame] computes on the session whose
    frame count and frame time were just updated; the session keeps what
    that reply left. *)
Theorem frame_message_replies json_loads client_id ws m (sv : server) s results
    n' reply s' :
  starts_with_brace (data m) = false \/ json_loads (data m) = None ->
  session_data sv !! client_id = Some s ->
  ((Session.processed_frames s + 1) mod 100 =? 0)%Z
    && Qeq_bool (frame_time m - Session.last_frame_time s) 0 = false ->
  InferenceClient.call_inference_service (data m) (net sv) = (inr results, n') ->
  Session.reply_to_frame (count_frame s (frame_time m)) results (rep_time m)
    = inr (reply, s') ->
  accepts_send (manager sv) ws = true ->
  on_message json_loads client_id ws m sv =
  (inr tt,
   mk_server
     (mk (active_connections (manager sv)) (last_activity (manager sv))
         (accepts_send (manager sv)) (delivered (manager sv) ++ [(ws, reply)])
         (clock (manager sv)) (ticks (manager sv)))
     (<[client_id := s']> (session_data sv)) n' (accepted sv)).
Proof.
  intros Hframe Hs Hlog Hcall Hreply Hopen.
  rewrite (on_message_frame _ _ _ _ Hframe).
  rewrite (frame_message_counted _ _ _ _ _ Hs). cbv zeta. rewrite Hlog.
  unfold IO.bind at 1. unfold on_net at 1. cbn [net]. rewrite Hcall.
  unfold IO.bind at 1. unfold get_session at 1. cbn [session_data].
  rewrite lookup_insert_eq, Hreply.
  unfold IO.bind, put_session, IO.modify, on_manager, send_json.
  cbn [manager session_data net accepted]. rewrite Hopen, insert_insert_eq.
  reflexivity.
Qed.

Lemma frame_message_replies_witness :
  let s := Session.mk RepCounter.init "squat" 250 7 in
  let sv := mk_server (Scenario.two_clients Scenario.all_open) {[ "a" := s ]}
              {| InferenceClient.environ := ∅; InferenceClient.replies := [];
                 InferenceClient.requests := [] |} [] in
  let r := on_message (fun _ => None) "a" 1
             {| data := "frame"; frame_time := 251; rep_time := 251 |} sv in
  r.1 = inr tt /\
  last (delivered (manager r.2)) = Some (1%nat, InferenceClient.timeout_error) /\
  session_data r.2 !! "a" = Some (Session.mk RepCounter.init "squat" 251 8).
Proof.
  intros s sv r. subst r.
  rewrite (frame_message_replies (fun _ => None) "a" 1 _ sv s
             InferenceClient.timeout_error
             {| InferenceClient.environ := ∅; InferenceClient.replies := [];
                InferenceClient.requests :=
                  [InferenceClient.inference_request (net sv) "frame"] |}
             InferenceClient.timeout_error (count_frame s 251));
    try reflexivity; [|left; reflexivity].
  cbn [fst snd manager session_data delivered]. rewrite lookup_insert_eq.
  repeat split.
Defined.

Lemma silent_connection_keeps_sessions {A} (m : io world A) json_loads
    client_id ws (sv : server) :
  session_data
    (IO.try_except
       (on_manager m ;;;
        IO.for_each [] (on_message json_loads client_id ws) ;;;
        raise (Exception "WebSocketDisconnect"))%io
       (fun _ => on_manager (disconnect client_id)) sv).2
  = session_data sv.
Proof.
  unfold IO.try_except, IO.bind, on_manager at 1.
  destruct (m (manager sv)) as [[e|a] w1]; cbn [IO.for_each IO.ret raise];
    rewrite on_manager_disconnect; reflexivity.
Qed.

(** X25: a connection that sends nothing leaves an existing session entry
    exactly as it was, so a client that reconnects keeps its rep counter; a
    client seen for the first time gets a fresh entry: exercise type squat,
    an empty counter, no frames. *)
Theorem session_survives_reconnect settings json_loads headers ws client_id now
    (sv : server) :
  OriginGate.cors_validation settings headers = true ->
  let r := websocket_endpoint settings json_loads headers ws client_id now [] sv in
  session_data r.2 =
    match session_data sv !! client_id with
    | Some _ => session_data sv
    | None => <[client_id := new_session now]> (session_data sv)
    end.
Proof.
  intros Hok. cbv zeta. unfold websocket_endpoint. rewrite Hok. cbn [negb].
  unfold IO.bind at 1. unfold accept at 1, IO.modify at 1.
  unfold IO.bind at 1. unfold on_manager at 1. rewrite connect_run.
  unfold IO.bind at 1. unfold ensure_session, IO.bind at 1, IO.get at 1.
  cbn [session_data].
  destruct (session_data sv !! client_id) as [s|];
    unfold IO.ret at 1 || unfold put_session at 1, IO.modify at 1;
    rewrite silent_connection_keeps_sessions; reflexivity.
Qed.

Lemma session_survives_reconnect_witness :
  let s := Session.mk (RepCounter.run RepCounter.init (Oscillation.oscillations 2))
                      "squat" 250 16 in
  let sv := mk_server (Scenario.fresh Scenario.all_open) {[ "a" := s ]}
              {| InferenceClient.environ := ∅; InferenceClient.replies := [];
                 InferenceClient.requests := [] |} [] in
  let r := websocket_endpoint default_settings (fun _ => None)
             [("origin", "http://localhost:3000")] 5 "a" 400 [] sv in
  session_data r.2 !! "a" = Some s.
Proof.
  intros s sv r. subst r.
  rewrite (session_survives_reconnect default_settings (fun _ => None)
             [("origin", "http://localhost:3000")] 5 "a" 400 sv);
    [|reflexivity].
  reflexivity.
Defined.

End EndpointFacts.

(** ** The echo endpoint *)

Section SimpleEndpointFacts.
Import SimpleEndpoint.

Lemma echo_loop_sent messages :
  forall w : wire,
    echo_loop messages w =
    (inr tt,
     mk (sent w ++ take (budget w) (map (fun text => "Echo: " +:+ text) messages))
        (budget w - length messages)).
Proof.
  induction messages as [|text rest IH]; intros [log n].
  - cbn. rewrite take_nil, app_nil_r, Nat.sub_0_r. reflexivity.
  - cbn [echo_loop]. unfold IO.bind at 1, IO.try_except, IO.bind, send_text.
    cbn [budget sent]. destruct n as [|n].
    + unfold IO.ret. cbn. rewrite app_nil_r. reflexivity.
    + unfold IO.ret at 1. rewrite IH. cbn [sent budget map take length Nat.sub].
      rewrite <- app_assoc. reflexivity.
Qed.

(** X26: the echo endpoint never raises.  It sends its greeting and then one
    ["Echo: ..."] line per received message, in order, and stops silently
    at the first send the connection no longer carries. *)
Theorem simple_websocket_echoes messages (w : wire) :
  simple_websocket messages w =
  (inr tt,
   mk (sent w ++ take (budget w)
                   ("Connected to simple test endpoint"
                    :: map (fun text => "Echo: " +:+ text) messages))
      (budget w - S (length messages))).
Proof.
  destruct w as [log n]. unfold simple_websocket, IO.try_except, IO.bind, send_text.
  cbn [budget sent]. destruct n as [|n].
  - unfold IO.ret. cbn. rewrite app_nil_r. reflexivity.
  - rewrite echo_loop_sent. cbn [sent budget take length Nat.sub].
    rewrite <- app_assoc. reflexivity.
Qed.

End SimpleEndpointFacts.

(** ** Properties of the binary64 rep counter *)

Section RepCounter64Facts.
Import PrimFloat SpecFloat RepCounter64.

(** [<] on floats is irreflexive and transitive, NaN included. *)
Lemma SFltb_irrefl x : SFltb x x = false.
Proof.
  unfold SFltb, SFcompare.
  destruct x as [s|s| |s m e]; try reflexivity.
  - destruct s; reflexivity.
  - destruct s; rewrite Z.compare_refl, Pos.compare_cont_refl; reflexivity.
Qed.

Lemma SFltb_trans x y z :
  SFltb x y = true -> SFltb y z = true -> SFltb x z = true.
Proof.
  unfold SFltb, SFcompare.
  destruct x as [sx|sx| |sx mx ex], y as [sy|sy| |sy my ey],
           z as [sz|sz| |sz mz ez];
    try discriminate; try reflexivity;
    repeat match goal with s : bool |- _ => destruct s end;
    try discriminate; try reflexivity.
  all: destruct (Z.compare_spec ex ey), (Z.compare_spec ey ez),
         (Z.compare_spec ex ez);
    try discriminate; try lia; try reflexivity; subst;
    change (Pos.compare_cont Eq ?a ?b) with (Pos.compare a b);
    destruct (Pos.compare_spec mx my), (Pos.compare_spec my mz),
      (Pos.compare_spec mx mz);
    cbn; try discriminate; try lia; try reflexivity.
Qed.

Lemma ltb_irrefl (x : float) : ltb x x = false.
Proof. rewrite FloatAxioms.ltb_spec. apply SFltb_irrefl. Qed.

Lemma ltb_trans (x y z : float) :
  ltb x y = true -> ltb y z = true -> ltb x z = true.
Proof. rewrite !FloatAxioms.ltb_spec. apply SFltb_trans. Qed.

(** What the scan of [max] keeps: an item no item is greater than. *)
Lemma max_scan rest : forall m seen,
  In m seen -> (forall x, In x seen -> ltb m x = false) ->
  let hi := fold_left (fun m y => if ltb m y then y else m) rest m in
  In hi (seen ++ rest) /\ forall x, In x (seen ++ rest) -> ltb hi x = false.
Proof.
  induction rest as [|y rest IH]; intros m seen Hin Hmax; cbn [fold_left].
  - rewrite app_nil_r. split; assumption.
  - replace (seen ++ y :: rest) with ((seen ++ [y]) ++ rest)
      by (rewrite <- app_assoc; reflexivity).
    destruct (ltb m y) eqn:Hmy; apply IH.
    + apply in_or_app. right. left. reflexivity.
    + intros x Hx. apply in_app_or in Hx. destruct Hx as [Hx | [<- | []]].
      * destruct (ltb y x) eqn:Hyx; [|reflexivity].
        rewrite <- (Hmax x Hx). symmetry. exact (ltb_trans _ _ _ Hmy Hyx).
      * apply ltb_irrefl.
    + apply in_or_app. left. exact Hin.
    + intros x Hx. apply in_app_or in Hx. destruct Hx as [Hx | [<- | []]].
      * exact (Hmax x Hx).
      * exact Hmy.
Qed.

Lemma min_scan rest : forall m seen,
  In m seen -> (forall x, In x seen -> ltb x m = false) ->
  let lo := fold_left (fun m y => if ltb y m then y else m) rest m in
  In lo (seen ++ rest) /\ forall x, In x (seen ++ rest) -> ltb x lo = false.
Proof.
  induction rest as [|y rest IH]; intros m seen Hin Hmin; cbn [fold_left].
  - rewrite app_nil_r. split; assumption.
  - replace (seen ++ y :: rest) with ((seen ++ [y]) ++ rest)
      by (rewrite <- app_assoc; reflexivity).
    destruct (ltb y m) eqn:Hym; apply IH.
    + apply in_or_app. right. left. reflexivity.
    + intros x Hx. apply in_app_or in Hx. destruct Hx as [Hx | [<- | []]].
      * destruct (ltb x y) eqn:Hxy; [|reflexivity].
        rewrite <- (Hmin x Hx). symmetry. exact (ltb_trans _ _ _ Hxy Hym).
      * apply ltb_irrefl.
    + apply in_or_app. left. exact Hin.
    + intros x Hx. apply in_app_or in Hx. destruct Hx as [Hx | [<- | []]].
      * exact (Hmin x Hx).
      * exact Hym.
Qed.

Lemma py_max_greatest xs hi :
  py_max xs = Some hi ->
  In hi xs /\ forall x, In x xs -> ltb hi x = false.
Proof.
  destruct xs as [|x0 rest]; [discriminate|]. intros [= <-].
  apply (max_scan rest x0 [x0]).
  - left. reflexivity.
  - intros x [<- | []]. apply ltb_irrefl.
Qed.

Lemma py_min_least xs lo :
  py_min xs = Some lo ->
  In lo xs /\ forall x, In x xs -> ltb x lo = false.
Proof.
  destruct xs as [|x0 rest]; [discriminate|]. intros [= <-].
  apply (min_scan rest x0 [x0]).
  - left. reflexivity.
  - intros x [<- | []]. apply ltb_irrefl.
Qed.

(** A buffer that holds three positions holds at least three after the
    next one is appended, for a capacity of three or more (it is 10). *)
Lemma window_of_three ps y cap :
  (3 <= length ps)%nat -> (3 <= cap)%nat ->
  (3 <= length (push_position ps y cap))%nat.
Proof.
  intros Hps Hcap. unfold push_position.
  destruct (cap <? length (ps ++ [y]))%nat eqn:Hover.
  - apply Nat.ltb_lt in Hover. rewrite length_tl. lia.
  - rewrite length_app. cbn. lia.
Qed.

(** C2: when a high-confidence observation arrives and the buffer then holds
    at least three positions (as it does whenever it already held three,
    [window_of_three]), [update] counts a rep, and records its time, exactly when (a) a previous
    direction was established, (b) the new direction, "newest below the
    quotient of the sum of the other buffered positions by their number",
    differs from it, (c) [now - last_rep_time] exceeds 0.5 and (d) the
    absolute difference of the buffer's greatest and least item exceeds
    0.15; all of it in binary64, as the interpreter computes it, for any
    implementation [py_sum] of the built-in sum.  If any of the four fails
    nothing is counted; the direction flag takes the new direction either
    way. *)
Theorem update_counts_rep_exactly_when py_sum self kps now kp :
  kps !! keypoint_idx self = Some kp ->
  ltb (default 0%float (kp !! "confidence")) 0x1p-1 = false ->
  let y := default 0%float (kp !! "y") in
  let appended := positions self ++ [y] in
  let window :=
    if (max_positions self <? length appended)%nat then tail appended
    else appended in
  (3 <= length window)%nat ->
  let rising :=
    ltb y (div (py_sum (removelast window))
               (of_uint63 (Uint63.of_Z (Z.of_nat (length window - 1))))) in
  exists hi lo,
    py_max window = Some hi /\ py_min window = Some lo /\
    In hi window /\ (forall x, In x window -> ltb hi x = false) /\
    In lo window /\ (forall x, In x window -> ltb x lo = false) /\
    let all_four :=
      going_up self <> None /\
      going_up self <> Some rising /\
      ltb 0x1p-1 (sub now (last_rep_time self)) = true /\
      ltb 0x1.3333333333333p-3 (abs (sub hi lo)) = true in
    let r := update py_sum self kps now in
    positions r.1 = window /\
    going_up r.1 = Some rising /\
    r.2 = rep_count r.1 /\
    (all_four ->
     rep_count r.1 = (rep_count self + 1)%Z /\ last_rep_time r.1 = now) /\
    (~ all_four ->
     rep_count r.1 = rep_count self /\ last_rep_time r.1 = last_rep_time self).
Proof.
  intros Hkp Hconf y appended window Hlen rising.
  assert (Hne : window <> []) by (intros E; rewrite E in Hlen; cbn in Hlen; lia).
  destruct (py_max window) as [hi|] eqn:Hhi;
    [|destruct window; [congruence | discriminate]].
  destruct (py_min window) as [lo|] eqn:Hlo;
    [|destruct window; [congruence | discriminate]].
  destruct (py_max_greatest _ _ Hhi) as [Hhi_in Hhi_max].
  destruct (py_min_least _ _ Hlo) as [Hlo_in Hlo_min].
  exists hi, lo. repeat (split; [first [reflexivity | assumption]|]).
  intros all_four r.
  assert (Hidx : (length kps =? 0)%nat || (length kps <=? keypoint_idx self)%nat
                 = false).
  { apply lookup_lt_Some in Hkp. apply orb_false_iff. split.
    - apply Nat.eqb_neq. lia.
    - apply Nat.leb_gt. exact Hkp. }
  assert (Hr : r = update py_sum self kps now) by reflexivity. clearbody r.
  unfold update in Hr. rewrite Hidx, Hkp in Hr. cbv zeta in Hr.
  fold y in Hr. unfold half in Hr. rewrite Hconf in Hr.
  cbn [set_positions positions going_up rep_count last_rep_time max_positions
       keypoint_idx] in Hr.
  unfold push_position in Hr. cbv zeta in Hr.
  fold appended in Hr. fold window in Hr.
  replace (length window <? 3)%nat with false in Hr
    by (symmetry; apply Nat.ltb_ge; exact Hlen).
  unfold avg_prev, float_of_nat in Hr. fold rising in Hr.
  unfold amplitude, min_movement in Hr. rewrite Hhi, Hlo in Hr.
  subst all_four.
  destruct (ltb 0x1p-1 (sub now (last_rep_time self))) eqn:Hc;
    destruct (ltb 0x1.3333333333333p-3 (abs (sub hi lo))) eqn:Hd;
    destruct (going_up self) as [[|]|]; destruct rising;
    subst r; cbn; repeat split; try reflexivity;
    try (match goal with
         | H : _ /\ _ |- _ => destruct H as (Ha & Hb & Hc' & Hd')
         end; exfalso; congruence);
    try (match goal with
         | H : ~ _ |- _ =>
           exfalso; apply H; repeat split; congruence
         end).
Qed.

Lemma update_counts_rep_exactly_when_witness :
  let self := run sum_left init level_start in
  let r := update sum_left self (frame 0x1p-1) 104 in
  going_up self = Some true /\ rep_count self = 0%Z /\
  going_up r.1 = Some false /\ rep_count r.1 = 1%Z /\
  last_rep_time r.1 = 104%float.
Proof.
  pose (self := run sum_left init level_start).
  assert (Hup : going_up self = Some true) by (vm_compute; reflexivity).
  assert (Hcount : rep_count self = 0%Z) by (vm_compute; reflexivity).
  destruct (update_counts_rep_exactly_when sum_left self (frame 0x1p-1) 104
              (<["y" := 0x1p-1%float]> (<["confidence" := 1%float]> ∅)))
    as (hi & lo & Hhi & Hlo & _ & _ & _ & _ & H).
  - vm_compute. reflexivity.
  - vm_compute. reflexivity.
  - vm_compute. lia.
  - cbv zeta in H. destruct H as (_ & Hdir & _ & Hyes & _).
    vm_compute in Hhi. vm_compute in Hlo.
    injection Hhi as <-. injection Hlo as <-.
    destruct Hyes as [Hrep Htime].
    { repeat split; vm_compute; first [discriminate | reflexivity]. }
    cbv zeta. fold self. rewrite Hrep, Htime, Hdir, Hcount, Hup.
    repeat split.
Defined.

End RepCounter64Facts.

(** ** The origin gate on header bytes *)

Section AsgiFacts.
Import OriginGate Asgi.

Lemma decode_valid b : utf8_valid b = true -> decode b = inr b.
Proof. intros H. unfold decode. rewrite H. reflexivity. Qed.

Lemma decode_invalid b :
  utf8_valid b = false -> decode b = inl (Exception "UnicodeDecodeError").
Proof. intros H. unfold decode. rewrite H. reflexivity. Qed.

Lemma decode_inr b s : decode b = inr s -> s = b /\ utf8_valid b = true.
Proof. unfold decode. destruct (utf8_valid b); [intros [= <-]; auto | discriminate]. Qed.

(** On headers that are well-formed UTF-8 the bytes-level gate is the
    text-level gate of [OriginGate]. *)
Lemma origin_of_text headers :
  Forall (fun h => utf8_valid h.1 = true /\ utf8_valid h.2 = true) headers ->
  origin headers = inr (origin_header headers).
Proof.
  induction 1 as [|[name value] rest [Hn Hv] _ IH]; [reflexivity|].
  cbn [fst snd] in Hn, Hv. cbn [origin origin_header].
  rewrite (decode_valid _ Hn), (decode_valid _ Hv), IH.
  destruct (String.eqb (lower name) "origin"); reflexivity.
Qed.

Lemma cors_validation_of_text settings headers :
  Forall (fun h => utf8_valid h.1 = true /\ utf8_valid h.2 = true) headers ->
  Asgi.cors_validation settings headers =
  inr (OriginGate.cors_validation settings headers).
Proof.
  intros H. unfold Asgi.cors_validation, OriginGate.cors_validation.
  rewrite (origin_of_text _ H).
  destruct (DEBUG settings); [reflexivity|].
  match goal with |- context [if ?b then _ else _] => destruct b end; reflexivity.
Qed.

(** The search stops at the first header named [origin]. *)
Lemma origin_first pre name value post :
  Forall (fun h => utf8_valid h.1 = true /\ lower h.1 <> "origin") pre ->
  utf8_valid name = true ->
  lower name = "origin" ->
  origin (pre ++ (name, value) :: post) =
  match decode value with inl e => inl e | inr v => inr (Some v) end.
Proof.
  intros Hpre Hvalid Hname.
  induction Hpre as [|[n v] pre [Hn Hne] _ IH]; cbn [app origin].
  - rewrite (decode_valid _ Hvalid), Hname. reflexivity.
  - cbn [fst] in Hn, Hne. rewrite (decode_valid _ Hn).
    apply String.eqb_neq in Hne. rewrite Hne. exact IH.
Qed.

(** C10, as the code has it, for headers the gate can decode ([origin] is
    what its search returned): with debug mode on every connection attempt
    is approved, whatever origin header it carries or lacks; with debug mode
    off the attempt is approved exactly when an origin header is present, is
    not empty, and is in the allow-list or the allow-list has the wildcard
    entry.  An absent header with debug off is rejected.  In each case the
    gate returns a decision. *)
Theorem cors_validation_decision settings headers found :
  origin headers = inr found ->
  (DEBUG settings = true -> Asgi.cors_validation settings headers = inr true) /\
  (DEBUG settings = false ->
   (Asgi.cors_validation settings headers = inr true <->
    exists o, found = Some o /\ o <> "" /\
              (In o (CORS_ORIGINS settings) \/ In "*" (CORS_ORIGINS settings)))) /\
  (DEBUG settings = false -> found = None ->
   Asgi.cors_validation settings headers = inr false) /\
  (exists approved, Asgi.cors_validation settings headers = inr approved).
Proof.
  intros Hfound. unfold Asgi.cors_validation. rewrite Hfound.
  destruct (DEBUG settings).
  - split; [reflexivity|]. split; [discriminate|]. split; [discriminate|eauto].
  - split; [discriminate|]. split; [intros _|split].
    + destruct found as [o|]; cbn [truthy].
      * destruct (String.eqb_spec o "") as [->|Hne]; cbn [negb andb].
        { split; [discriminate|]. intros (o & [= <-] & Hne & _). congruence. }
        destruct (contains o (CORS_ORIGINS settings)) eqn:Ho;
          destruct (contains "*" (CORS_ORIGINS settings)) eqn:Hw; cbn [orb];
          (split;
           [ intros Hyes; try discriminate; exists o; repeat split; try assumption;
             first [ left; apply contains_In; assumption
                   | right; apply contains_In; assumption ]
           | intros (o' & [= <-] & _ & [Hin | Hin]); try reflexivity;
             apply contains_In in Hin; congruence ]).
      * cbn. split; [discriminate|]. intros (o & Ho & _). discriminate.
    + intros _ ->. reflexivity.
    + match goal with |- context [if ?b then _ else _] => destruct b end; eauto.
Qed.

Lemma cors_validation_decision_witness :
  let settings := {| DEBUG := false; CORS_ORIGINS := ["https://example.com"] |} in
  Asgi.cors_validation settings [] = inr false /\
  Asgi.cors_validation settings
    [("Host", "api"); ("Origin", "https://example.com")] = inr true /\
  Asgi.cors_validation {| DEBUG := true; CORS_ORIGINS := [] |} [] = inr true.
Proof.
  intros settings.
  destruct (cors_validation_decision settings [] None eq_refl)
    as (_ & _ & Habsent & _).
  destruct (cors_validation_decision settings
              [("Host", "api"); ("Origin", "https://example.com")]
              (Some "https://example.com") eq_refl)
    as (_ & Hiff & _).
  destruct (cors_validation_decision {| DEBUG := true; CORS_ORIGINS := [] |} []
              None eq_refl)
    as (Hdebug & _).
  split; [|split].
  - apply Habsent; reflexivity.
  - apply Hiff; [reflexivity|].
    exists "https://example.com".
    repeat split; [discriminate | left; left; reflexivity].
  - apply Hdebug. reflexivity.
Defined.

(** X19: with the settings the service ships ([DEBUG] off, ["*"] in the
    allow-list) a connection is approved exactly when the gate's search
    finds an origin header whose value decodes and is not empty, whatever
    that origin is; and the gate raises exactly when the search does. *)
Theorem default_settings_admit_any_decoded_origin headers :
  (Asgi.cors_validation Endpoint.default_settings headers = inr true <->
   exists o, origin headers = inr (Some o) /\ o <> "") /\
  (forall e, Asgi.cors_validation Endpoint.default_settings headers = inl e <->
             origin headers = inl e).
Proof.
  unfold Asgi.cors_validation. cbn [DEBUG CORS_ORIGINS Endpoint.default_settings].
  destruct (origin headers) as [e0|[o|]]; cbn [truthy].
  - split.
    + split; [discriminate|]. intros (o & Ho & _). discriminate.
    + intros e. split; intros [= ->]; reflexivity.
  - destruct (String.eqb_spec o "") as [->|Hne]; cbn [negb andb].
    + split; [|intros e; split; discriminate].
      split; [discriminate|]. intros (o & [= <-] & Hne). congruence.
    + replace (contains "*" _) with true by reflexivity.
      rewrite orb_true_r. split; [|intros e; split; discriminate].
      split; [|reflexivity]. intros _. exists o. auto.
  - cbn. split; [|intros e; split; discriminate].
    split; [discriminate|]. intros (o & Ho & _). discriminate.
Qed.

(** X27: the gate decodes the headers before it reads [DEBUG].  An origin
    header whose value is not well-formed UTF-8 makes it raise
    [UnicodeDecodeError] under every setting, debug mode included, and
    whatever follows that header. *)
Theorem undecodable_origin_raises_under_any_settings settings pre name value post :
  Forall (fun h => utf8_valid h.1 = true /\ lower h.1 <> "origin") pre ->
  utf8_valid name = true ->
  lower name = "origin" ->
  utf8_valid value = false ->
  Asgi.cors_validation settings (pre ++ (name, value) :: post) =
  inl (Exception "UnicodeDecodeError").
Proof.
  intros Hpre Hvalid Hname Hvalue. unfold Asgi.cors_validation.
  rewrite (origin_first _ _ _ _ Hpre Hvalid Hname), (decode_invalid _ Hvalue).
  reflexivity.
Qed.

Lemma undecodable_origin_raises_under_any_settings_witness :
  Asgi.cors_validation {| DEBUG := true; CORS_ORIGINS := ["*"] |}
    [("host", "api"); ("Origin", not_utf8); ("origin", "https://example.com")]
  = inl (Exception "UnicodeDecodeError").
Proof.
  apply (undecodable_origin_raises_under_any_settings
           {| DEBUG := true; CORS_ORIGINS := ["*"] |}
           [("host", "api")] "Origin" not_utf8
           [("origin", "https://example.com")]).
  - repeat constructor. discriminate.
  - reflexivity.
  - reflexivity.
  - reflexivity.
Defined.

End AsgiFacts.

(** ** A frame whose inference call fails *)

Section FailedInference.
Import InferenceClient ConnectionManager Endpoint.

(** The payload of a call that did not get a decodable 200 response carries
    an [error] key. *)
Lemma failed_call_has_error frame_data (w : http) :
  (forall resp p, head (replies w) = Some (inr resp) ->
                  status resp = 200%Z -> body resp <> inr p) ->
  exists reply n',
    call_inference_service frame_data w = (inr reply, n') /\
    is_Some (reply !! "error").
Proof.
  intros Hfail. rewrite call_inference_service_run. eexists _, _.
  split; [reflexivity|].
  assert (Herr : forall text, is_Some (error_result text !! "error")).
  { intros text. unfold error_result. rewrite lookup_singleton_eq. eauto. }
  destruct (head (replies w)) as [[[|msg]|resp]|]; try apply Herr.
  destruct (status resp =? 200)%Z eqn:Hstatus; [|apply Herr].
  apply Z.eqb_eq in Hstatus.
  destruct (body resp) as [[|msg]|p] eqn:Hbody; try apply Herr.
  exfalso. exact (Hfail resp p eq_refl Hstatus Hbody).
Qed.

(** X17: a frame whose inference call fails in any way (fault, timeout,
    status other than 200, undecodable body) is counted in the frame
    statistics like any other: in the client's session entry the frame time
    and the frame count are updated, while the rep counter and the exercise
    type stay as they were.  The reply is the call's payload, which carries
    an [error] key; it is delivered if the socket takes it, and otherwise
    the send raises with the session entry already updated. *)
Theorem failed_inference_keeps_rep_counter json_loads client_id ws m
    (sv : server) s :
  starts_with_brace (data m) = false \/ json_loads (data m) = None ->
  session_data sv !! client_id = Some s ->
  ((Session.processed_frames s + 1) mod 100 =? 0)%Z
    && Qeq_bool (frame_time m - Session.last_frame_time s) 0 = false ->
  (forall resp p, head (replies (net sv)) = Some (inr resp) ->
                  status resp = 200%Z -> body resp <> inr p) ->
  exists reply,
    (call_inference_service (data m) (net sv)).1 = inr reply /\
    is_Some (reply !! "error") /\
    let r := on_message json_loads client_id ws m sv in
    session_data r.2 =
      <[client_id := Session.mk (Session.rep_counter s) (Session.exercise_type s)
                       (frame_time m) (Session.processed_frames s + 1)]>
        (session_data sv) /\
    (accepts_send (manager sv) ws = true ->
     r.1 = inr tt /\
     delivered (manager r.2) = delivered (manager sv) ++ [(ws, reply)]) /\
    (accepts_send (manager sv) ws = false ->
     r.1 = inl (Exception "websocket is closed") /\
     delivered (manager r.2) = delivered (manager sv)).
Proof.
  intros Hframe Hs Hlog Hfail.
  destruct (failed_call_has_error (data m) (net sv) Hfail)
    as (reply & n' & Hcall & Hkey).
  exists reply. split; [rewrite Hcall; reflexivity|]. split; [exact Hkey|].
  assert (Hrun : on_message json_loads client_id ws m sv =
    let sessions := <[client_id := count_frame s (frame_time m)]> (session_data sv) in
    if accepts_send (manager sv) ws then
      (inr tt,
       mk_server
         (mk (active_connections (manager sv)) (last_activity (manager sv))
             (accepts_send (manager sv)) (delivered (manager sv) ++ [(ws, reply)])
             (clock (manager sv)) (ticks (manager sv)))
         sessions n' (accepted sv))
    else (inl (Exception "websocket is closed"),
          mk_server (manager sv) sessions n' (accepted sv))).
  { rewrite (on_message_frame _ _ _ _ Hframe).
    rewrite (frame_message_counted _ _ _ _ _ Hs). cbv zeta. rewrite Hlog.
    unfold IO.bind at 1. unfold on_net at 1. cbn [net]. rewrite Hcall.
    unfold IO.bind at 1. unfold get_session at 1. cbn [session_data].
    rewrite lookup_insert_eq. unfold Session.reply_to_frame.
    rewrite bool_decide_eq_true_2 by exact Hkey.
    unfold IO.bind, put_session, IO.modify, on_manager, send_json.
    cbn [manager session_data net accepted]. rewrite insert_insert_eq.
    destruct (accepts_send (manager sv) ws); reflexivity. }
  intros r. subst r. rewrite Hrun. cbv zeta. unfold count_frame.
  destruct (accepts_send (manager sv) ws); cbn [fst snd session_data manager delivered];
    (split; [reflexivity|]); split; intros H; try discriminate; split; reflexivity.
Qed.

Lemma failed_inference_keeps_rep_counter_witness :
  let rc := RepCounter.run RepCounter.init (Oscillation.oscillations 1) in
  let s := Session.mk rc "squat" 250 7 in
  let sv := mk_server (Scenario.two_clients Scenario.all_open) {[ "a" := s ]}
              {| environ := ∅; replies := [inr {| status := 503; body := inr ∅ |}];
                 requests := [] |} [] in
  let r := on_message (fun _ => None) "a" 1
             {| data := "frame"; frame_time := 251; rep_time := 251 |} sv in
  r.1 = inr tt /\
  session_data r.2 !! "a" = Some (Session.mk rc "squat" 251 8) /\
  last (delivered (manager r.2)) = Some (1%nat, status_error 503).
Proof.
  intros rc s sv r.
  destruct (failed_inference_keeps_rep_counter (fun _ => None) "a" 1
              {| data := "frame"; frame_time := 251; rep_time := 251 |} sv s)
    as (reply & Hcall & _ & Hsession & Hopen & _).
  - left. reflexivity.
  - reflexivity.
  - reflexivity.
  - intros resp p [= <-]. discriminate.
  - cbv zeta in Hsession, Hopen. fold r in Hsession, Hopen.
    destruct Hopen as [Hok Hsent]; [reflexivity|].
    assert (Hreply : inr reply = (inr (status_error 503) : exn + payload))
      by (rewrite <- Hcall; reflexivity).
    injection Hreply as ->.
    rewrite Hok, Hsession, Hsent, lookup_insert_eq.
    split; [reflexivity|]. split; [reflexivity|]. reflexivity.
Defined.

End FailedInference.
